(** * gVisor sentry: timerfd, control-plane lifecycle, container restore

    A shallow embedding of
    - [pkg/sentry/fsimpl/timerfd/timerfd.go] (module [Timerfd]),
    - [pkg/sentry/control/lifecycle.go] (module [Control]),
    - the container status machine and restore-time spec validation that
      [runsc/container/container_test.go] exercises (module [Container]),
    - the helpers of [runsc/container/container_test.go] that compare process
      lists and read the output file of a workload (module [ContainerTest]),
    - the test sharding of [pkg/test/testutil/testutil.go] (module
      [Testutil]).

    Go integers are [Z] with the wrap-around of their width written out;
    byte slices are lists of 8-bit [Z]; Go maps are [gmap]; a fallible Go
    function returns [option error] next to its result, [None] being [nil]. *)

From Stdlib Require Import ZArith Lia Ascii String DecimalString DecimalZ
  DecimalPos Sorted.
From stdpp Require Import base option list strings gmap.

Local Open Scope Z_scope.

(** ** Fixed-width integers *)

Definition wrap_uint64 (z : Z) : Z := z mod 2 ^ 64.

(** Go's [int32] arithmetic wraps silently in two's complement. *)
Definition wrap_int32 (z : Z) : Z := (z + 2 ^ 31) mod 2 ^ 32 - 2 ^ 31.

Definition is_uint64 (z : Z) : Prop := 0 <= z < 2 ^ 64.
Definition is_int32 (z : Z) : Prop := - 2 ^ 31 <= z < 2 ^ 31.

Lemma wrap_uint64_range z : is_uint64 (wrap_uint64 z).
Proof. unfold is_uint64, wrap_uint64. apply Z.mod_pos_bound. lia. Qed.

Lemma wrap_uint64_id z : is_uint64 z -> wrap_uint64 z = z.
Proof. unfold is_uint64, wrap_uint64. intros H. apply Z.mod_small. lia. Qed.

Lemma wrap_int32_range z : is_int32 (wrap_int32 z).
Proof.
  unfold is_int32, wrap_int32.
  pose proof (Z.mod_pos_bound (z + 2 ^ 31) (2 ^ 32)). lia.
Qed.

Lemma wrap_int32_id z : is_int32 z -> wrap_int32 z = z.
Proof.
  unfold is_int32, wrap_int32. intros H.
  rewrite Z.mod_small; lia.
Qed.

(** Go's [int] is 64 bits wide on the platforms gVisor runs on; its
    arithmetic wraps. *)
Definition wrap_int64 (z : Z) : Z := (z + 2 ^ 63) mod 2 ^ 64 - 2 ^ 63.

Definition is_int64 (z : Z) : Prop := - 2 ^ 63 <= z < 2 ^ 63.

Lemma wrap_int64_id z : is_int64 z -> wrap_int64 z = z.
Proof.
  unfold is_int64, wrap_int64. intros H. rewrite Z.mod_small; lia.
Qed.

(** Settles every integer comparison of the goal that [lia] can decide. *)
Ltac decide_cmp :=
  repeat match goal with
  | |- context [?a <=? ?b] =>
      first [ replace (a <=? b) with true by (symmetry; apply Z.leb_le; lia)
            | replace (a <=? b) with false by (symmetry; apply Z.leb_gt; lia) ]
  | |- context [?a <? ?b] =>
      first [ replace (a <? b) with true by (symmetry; apply Z.ltb_lt; lia)
            | replace (a <? b) with false by (symmetry; apply Z.ltb_ge; lia) ]
  end.

(** ** Errors *)

(** The [linuxerr] values [timerfd.go] returns itself, the errors a copy-out
    to user memory can come back with, formatted errors, and the state and
    validation errors of the container life cycle ([NotRunning], [NotPaused],
    [SpecMismatch(field)] in the spec). *)
Inductive error : Type :=
  | EINVAL
  | ErrWouldBlock
  | EFAULT
  | Errorf (msg : string)
  | NotRunning
  | NotPaused
  | SpecMismatch (field : string).

#[global] Instance error_eq_dec : EqDecision error.
Proof. solve_decision. Defined.

(** ** encoding/binary, little endian ([hostarch.ByteOrder]) *)

Module ByteOrder.

(** Go's conversion [byte(v)]. *)
Definition byte (v : Z) : Z := Z.land v 255.

(** [binary.LittleEndian.PutUint64]: [b[i] = byte(v >> (8*i))]. *)
Definition PutUint64 (v : Z) : list Z :=
  [ byte v; byte (Z.shiftr v 8); byte (Z.shiftr v 16); byte (Z.shiftr v 24);
    byte (Z.shiftr v 32); byte (Z.shiftr v 40); byte (Z.shiftr v 48);
    byte (Z.shiftr v 56) ].

(** [binary.LittleEndian.Uint64]; a slice shorter than 8 bytes panics in Go,
    here [None]. *)
Definition Uint64 (b : list Z) : option Z :=
  match b with
  | b0 :: b1 :: b2 :: b3 :: b4 :: b5 :: b6 :: b7 :: _ =>
      Some (Z.lor b0 (Z.lor (Z.shiftl b1 8) (Z.lor (Z.shiftl b2 16)
           (Z.lor (Z.shiftl b3 24) (Z.lor (Z.shiftl b4 32)
           (Z.lor (Z.shiftl b5 40) (Z.lor (Z.shiftl b6 48)
                  (Z.shiftl b7 56))))))))
  | _ => None
  end.

Definition is_byte (b : Z) : Prop := 0 <= b < 256.

Lemma byte_range v : is_byte (byte v).
Proof.
  unfold is_byte, byte. change 255 with (Z.ones 8).
  rewrite Z.land_ones by lia. apply Z.mod_pos_bound. lia.
Qed.

Lemma PutUint64_length v : length (PutUint64 v) = 8%nat.
Proof. reflexivity. Qed.

Lemma PutUint64_bytes v : Forall is_byte (PutUint64 v).
Proof. unfold PutUint64. repeat constructor; apply byte_range. Qed.

Lemma testbit_byte v n : 0 <= n ->
  Z.testbit (byte v) n = Z.testbit v n && (n <? 8).
Proof.
  intros Hn. unfold byte. change 255 with (Z.ones 8).
  rewrite Z.land_spec, Z.testbit_ones_nonneg by lia.
  destruct (n <? 8) eqn:E; [apply Z.ltb_lt in E | apply Z.ltb_ge in E].
  - replace (n <? 8) with true by (symmetry; apply Z.ltb_lt; lia). reflexivity.
  - replace (n <? 8) with false by (symmetry; apply Z.ltb_ge; lia). reflexivity.
Qed.

Lemma testbit_shifted_byte v k n : 0 <= k -> 0 <= n ->
  Z.testbit (Z.shiftl (byte (Z.shiftr v k)) k) n
  = Z.testbit v n && (k <=? n) && (n <? k + 8).
Proof.
  intros Hk Hn. rewrite Z.shiftl_spec by lia.
  destruct (k <=? n) eqn:E; [apply Z.leb_le in E | apply Z.leb_gt in E].
  - rewrite testbit_byte, Z.shiftr_spec by lia.
    replace (n - k + k) with n by lia.
    destruct (n <? k + 8) eqn:E2; [apply Z.ltb_lt in E2 | apply Z.ltb_ge in E2].
    + replace (n - k <? 8) with true by (symmetry; apply Z.ltb_lt; lia).
      destruct (Z.testbit v n); reflexivity.
    + replace (n - k <? 8) with false by (symmetry; apply Z.ltb_ge; lia).
      destruct (Z.testbit v n); reflexivity.
  - rewrite Z.testbit_neg_r by lia. destruct (Z.testbit v n); reflexivity.
Qed.

Lemma testbit_uint64_high v n : is_uint64 v -> 64 <= n -> Z.testbit v n = false.
Proof.
  intros [H0 H1] Hn. destruct (Z.eq_dec v 0) as [->|Hv].
  - apply Z.testbit_0_l.
  - apply Z.bits_above_log2; [lia|].
    assert (Z.log2 v < 64) by (apply Z.log2_lt_pow2; lia). lia.
Qed.

(** Decoding what [PutUint64] wrote gives the value back. *)
Lemma Uint64_PutUint64 v : is_uint64 v -> Uint64 (PutUint64 v) = Some v.
Proof.
  intros Hv. unfold PutUint64, Uint64. f_equal.
  apply Z.bits_inj'. intros n Hn.
  rewrite !Z.lor_spec.
  rewrite <- (Z.shiftl_0_r (byte v)) at 1.
  rewrite <- (Z.shiftr_0_r v) at 1.
  rewrite !testbit_shifted_byte by lia.
  destruct (Z.testbit v n) eqn:Hb; simpl.
  - assert (n < 64).
    { destruct (Z.lt_ge_cases n 64) as [|Hge]; [done|].
      rewrite (testbit_uint64_high v n Hv Hge) in Hb. discriminate. }
    assert (n < 8 \/ 8 <= n < 16 \/ 16 <= n < 24 \/ 24 <= n < 32 \/
            32 <= n < 40 \/ 40 <= n < 48 \/ 48 <= n < 56 \/ 56 <= n) as Hcase
      by lia.
    repeat (destruct Hcase as [Hcase|Hcase]); decide_cmp; reflexivity.
  - reflexivity.
Qed.

End ByteOrder.

(** ** pkg/sentry/fsimpl/timerfd *)

Module Timerfd.

(** [waiter.EventMask] is a [uint64] bit set. *)
Definition EventMask := Z.

(** Modelled from the spec: [waiter.ReadableEvents] ([pkg/waiter] is not part
    of the sources at hand). The spec calls it [Readable]; the value is that
    of [EventIn | EventRdNorm], [0x01 | 0x40]. The results below use only
    that it is not the empty mask. *)
Definition ReadableEvents : EventMask := Z.lor 1 64.

(** [r] is a subset of [m]: every event bit of [r] is set in [m]. *)
Definition mask_subset (r m : EventMask) : Prop :=
  forall i, 0 <= i -> Z.testbit r i = true -> Z.testbit m i = true.

(** [waiter.Queue], as far as the file description uses it: the registered
    entries (each with its mask) and the masks notified so far, latest
    first. *)
Record Entry : Type := { entry_id : nat; entry_mask : EventMask }.

#[global] Instance Entry_eq_dec : EqDecision Entry.
Proof. solve_decision. Defined.

Record Queue : Type := { entries : list Entry; notified : list EventMask }.

Definition Queue_EventRegister (q : Queue) (e : Entry) : Queue :=
  {| entries := entries q ++ [e]; notified := notified q |}.

Definition Queue_EventUnregister (q : Queue) (e : Entry) : Queue :=
  {| entries := filter (fun e' => e' <> e) (entries q);
     notified := notified q |}.

Definition Queue_Notify (q : Queue) (mask : EventMask) : Queue :=
  {| entries := entries q; notified := mask :: notified q |}.

Section WithTimerAndMemory.

(** [ktime.Timer] and the task memory behind a [usermem.IOSequence] belong
    to packages outside the sources at hand; they stay abstract. *)
Context {Timer Setting Time Mem : Type}.

(** [timer.Set(s, f)] returns the observed time and the previous setting; it
    runs [f] under the timer's lock, which the embedding of [SetTime] writes
    out. *)
Variable Timer_Set : Timer -> Setting -> (Time * Setting) * Timer.
Variable Timer_Get : Timer -> Time * Setting.
Variable Timer_Pause : Timer -> Timer.
Variable Timer_Resume : Timer -> Timer.

(** A destination [usermem.IOSequence]: its length in bytes (an [int64]) and
    what copying a byte slice out to it does to memory, with the number of
    bytes copied and the error, [None] for [nil]. *)
Record IOSequence : Type := {
  NumBytes : Z;
  CopyOut : list Z -> Mem -> (Z * option error) * Mem
}.

Record TimerFileDescription : Type := {
  events : Queue;
  timer : Timer;
  (** the number of timer expirations since the last successful call to
      PRead, or SetTime; a [uint64] *)
  val : Z
}.

Definition set_val (tfd : TimerFileDescription) (v : Z) : TimerFileDescription :=
  {| events := events tfd; timer := timer tfd; val := v |}.

Definition sizeofUint64 : Z := 8.

(** [Read]: the result pair [(n, err)], the file description and the memory
    afterwards. [tfd.val.Swap(0)] happens before the copy-out, and nothing
    puts the old value back when the copy-out fails. *)
Definition Read (tfd : TimerFileDescription) (dst : IOSequence) (m : Mem)
  : (Z * option error) * TimerFileDescription * Mem :=
  if NumBytes dst <? sizeofUint64 then ((0, Some EINVAL), tfd, m)
  else
    let v := val tfd in
    let tfd' := set_val tfd 0 in
    if negb (v =? 0) then
      let buf := ByteOrder.PutUint64 v in
      match CopyOut dst buf m with
      | ((_, Some err), m') => ((0, Some err), tfd', m')
      | ((_, None), m') => ((sizeofUint64, None), tfd', m')
      end
    else ((0, Some ErrWouldBlock), tfd', m).

Definition GetTime (tfd : TimerFileDescription) : Time * Setting :=
  Timer_Get (timer tfd).

(** [SetTime]: the callback handed to [timer.Set] stores 0 in [val]. *)
Definition SetTime (tfd : TimerFileDescription) (s : Setting)
  : (Time * Setting) * TimerFileDescription :=
  let '(r, t') := Timer_Set (timer tfd) s in
  (r, {| events := events tfd; timer := t'; val := 0 |}).

(** [Readiness]: the argument mask is not consulted. *)
Definition Readiness (tfd : TimerFileDescription) (mask : EventMask) : EventMask :=
  let ready := 0 in
  let ready := if negb (val tfd =? 0) then Z.lor ready ReadableEvents else ready in
  ready.

Definition EventRegister (tfd : TimerFileDescription) (e : Entry)
  : option error * TimerFileDescription :=
  (None, {| events := Queue_EventRegister (events tfd) e;
            timer := timer tfd; val := val tfd |}).

Definition EventUnregister (tfd : TimerFileDescription) (e : Entry)
  : TimerFileDescription :=
  {| events := Queue_EventUnregister (events tfd) e;
     timer := timer tfd; val := val tfd |}.

Definition Epollable (tfd : TimerFileDescription) : bool := true.

Definition PauseTimer (tfd : TimerFileDescription) : TimerFileDescription :=
  {| events := events tfd; timer := Timer_Pause (timer tfd); val := val tfd |}.

Definition ResumeTimer (tfd : TimerFileDescription) : TimerFileDescription :=
  {| events := events tfd; timer := Timer_Resume (timer tfd); val := val tfd |}.

(** [NotifyTimer]: [tfd.val.Add(exp)] wraps at 64 bits. *)
Definition NotifyTimer (tfd : TimerFileDescription) (exp : Z)
  : TimerFileDescription :=
  {| events := Queue_Notify (events tfd) ReadableEvents;
     timer := timer tfd;
     val := wrap_uint64 (val tfd + exp) |}.

(** The listener called once per entry of [exps], in order. *)
Definition NotifyTimers (tfd : TimerFileDescription) (exps : list Z)
  : TimerFileDescription :=
  fold_left NotifyTimer exps tfd.

(** *** Helper facts *)

Lemma set_val_same tfd : set_val tfd (val tfd) = tfd.
Proof. destruct tfd; reflexivity. Qed.

Lemma Read_short tfd dst m :
  NumBytes dst < sizeofUint64 -> Read tfd dst m = ((0, Some EINVAL), tfd, m).
Proof.
  intros H. unfold Read.
  replace (NumBytes dst <? sizeofUint64) with true
    by (symmetry; apply Z.ltb_lt; exact H).
  reflexivity.
Qed.

Lemma Read_zero tfd dst m :
  sizeofUint64 <= NumBytes dst -> val tfd = 0 ->
  Read tfd dst m = ((0, Some ErrWouldBlock), tfd, m).
Proof.
  intros H Hv. unfold Read.
  replace (NumBytes dst <? sizeofUint64) with false
    by (symmetry; apply Z.ltb_ge; exact H).
  assert (set_val tfd 0 = tfd) as -> by (rewrite <- Hv; apply set_val_same).
  rewrite Hv. reflexivity.
Qed.

Lemma Read_nonzero tfd dst m :
  sizeofUint64 <= NumBytes dst -> val tfd <> 0 ->
  Read tfd dst m =
    match CopyOut dst (ByteOrder.PutUint64 (val tfd)) m with
    | ((_, Some err), m') => ((0, Some err), set_val tfd 0, m')
    | ((_, None), m') => ((sizeofUint64, None), set_val tfd 0, m')
    end.
Proof.
  intros H Hv. unfold Read.
  replace (NumBytes dst <? sizeofUint64) with false
    by (symmetry; apply Z.ltb_ge; exact H).
  replace (val tfd =? 0) with false
    by (symmetry; apply Z.eqb_neq; exact Hv).
  reflexivity.
Qed.

Lemma NotifyTimers_val tfd exps :
  val (NotifyTimers tfd exps) = wrap_uint64 (val tfd + fold_right Z.add 0 exps)
  \/ (exps = [] /\ val (NotifyTimers tfd exps) = val tfd).
Proof.
  revert tfd. induction exps as [|e exps IH]; intros tfd; [right; done|].
  left. unfold NotifyTimers in *. simpl fold_left. simpl fold_right.
  destruct (IH (NotifyTimer tfd e)) as [->|[-> ->]]; simpl.
  - unfold wrap_uint64. rewrite Zplus_mod_idemp_l. f_equal. lia.
  - f_equal. lia.
Qed.

Lemma ReadableEvents_nonzero : ReadableEvents <> 0.
Proof. discriminate. Qed.

Lemma mask_subset_zero m : mask_subset 0 m.
Proof. intros i _ H. rewrite Z.testbit_0_l in H. discriminate. Qed.

Lemma Readiness_eq tfd mask :
  Readiness tfd mask = if val tfd =? 0 then 0 else ReadableEvents.
Proof. unfold Readiness. destruct (val tfd =? 0); reflexivity. Qed.

(** After [SetTime] the counter is zero. *)
Lemma SetTime_val tfd s : val (snd (SetTime tfd s)) = 0.
Proof. unfold SetTime. destruct (Timer_Set (timer tfd) s). reflexivity. Qed.

(** Expirations delivered to a file description whose counter is zero add up
    in the counter, modulo 2^64. *)
Lemma NotifyTimers_from_zero tfd exps :
  val tfd = 0 ->
  val (NotifyTimers tfd exps) = wrap_uint64 (fold_right Z.add 0 exps).
Proof.
  intros Hz. destruct (NotifyTimers_val tfd exps) as [->|[-> ->]].
  - rewrite Hz. reflexivity.
  - rewrite Hz. reflexivity.
Qed.

(** *** Read *)

(** The claim of the spec that a read which fails to copy out leaves the
    counter as it was, at one file description, destination and memory. *)
Definition failed_copy_out_keeps_counter
  (tfd : TimerFileDescription) (dst : IOSequence) (m : Mem) : Prop :=
  forall n err m',
    sizeofUint64 <= NumBytes dst -> val tfd <> 0 ->
    CopyOut dst (ByteOrder.PutUint64 (val tfd)) m = ((n, Some err), m') ->
    fst (fst (Read tfd dst m)) = (0, Some err) /\
    val (snd (fst (Read tfd dst m))) = val tfd.

(** C1, as amended. When [Read] finds a non-zero counter and the copy-out to
    the destination fails, it returns 0 bytes and the copy-out error, and the
    counter has been reset to zero all the same: the expirations are consumed
    by the failed read. Nothing else of the file description changes. *)
Theorem Read_copy_out_error_consumes_counter tfd dst m n err m' :
  sizeofUint64 <= NumBytes dst -> val tfd <> 0 ->
  CopyOut dst (ByteOrder.PutUint64 (val tfd)) m = ((n, Some err), m') ->
  Read tfd dst m = ((0, Some err), set_val tfd 0, m') /\
  val (snd (fst (Read tfd dst m))) = 0.
Proof.
  intros Hlen Hv Hcopy.
  rewrite (Read_nonzero tfd dst m Hlen Hv), Hcopy. split; reflexivity.
Qed.

(** With a destination of at least 8 bytes: when the counter is non-zero
    and the copy-out succeeds, [Read] returns 8 and [nil], the 8 bytes copied
    out are the little-endian encoding of the counter, the counter is zero
    afterwards, and a [Read] that follows at once returns [ErrWouldBlock];
    when the counter is zero, [Read] returns [ErrWouldBlock] and file
    description and memory are as before. *)
Theorem Read_returns_expirations_and_resets tfd dst m :
  sizeofUint64 <= NumBytes dst -> is_uint64 (val tfd) ->
  (val tfd <> 0 ->
   forall n m',
     CopyOut dst (ByteOrder.PutUint64 (val tfd)) m = ((n, None), m') ->
     Read tfd dst m = ((8, None), set_val tfd 0, m') /\
     length (ByteOrder.PutUint64 (val tfd)) = 8%nat /\
     ByteOrder.Uint64 (ByteOrder.PutUint64 (val tfd)) = Some (val tfd) /\
     val (snd (fst (Read tfd dst m))) = 0 /\
     Read (set_val tfd 0) dst m' =
       ((0, Some ErrWouldBlock), set_val tfd 0, m')) /\
  (val tfd = 0 -> Read tfd dst m = ((0, Some ErrWouldBlock), tfd, m)).
Proof.
  intros Hlen Hrange. split.
  - intros Hv n m' Hcopy.
    rewrite (Read_nonzero tfd dst m Hlen Hv), Hcopy.
    repeat split.
    + apply ByteOrder.Uint64_PutUint64, Hrange.
    + apply Read_zero; [exact Hlen | reflexivity].
  - intros Hv. apply Read_zero; assumption.
Qed.

(** C10. A [Read] into a destination of fewer than 8 bytes returns [EINVAL]
    and changes nothing, whatever the counter holds. *)
Theorem Read_short_buffer_EINVAL tfd dst m :
  NumBytes dst < sizeofUint64 ->
  Read tfd dst m = ((0, Some EINVAL), tfd, m) /\
  val (snd (fst (Read tfd dst m))) = val tfd.
Proof.
  intros Hlen. rewrite (Read_short tfd dst m Hlen). split; reflexivity.
Qed.

(** *** Readiness *)

(** C8, as amended. [Readiness] does not look at its argument: it returns
    [ReadableEvents] when the counter is non-zero and the empty mask when it
    is zero. The result is a subset of the argument mask exactly when the
    counter is zero or the argument includes the readable events. *)
Theorem Readiness_ignores_mask tfd mask :
  Readiness tfd mask = (if val tfd =? 0 then 0 else ReadableEvents) /\
  (mask_subset (Readiness tfd mask) mask <->
   val tfd = 0 \/ mask_subset ReadableEvents mask).
Proof.
  split; [apply Readiness_eq|].
  rewrite Readiness_eq.
  destruct (val tfd =? 0) eqn:E;
    [apply Z.eqb_eq in E | apply Z.eqb_neq in E].
  - split; [intros _; left; exact E | intros _; apply mask_subset_zero].
  - split; [intros H; right; exact H | intros [H|H]; [contradiction | exact H]].
Qed.

(** *** How the operations compose *)

(** [SetTime] throws away the expirations counted so far: whatever the
    counter held, after [SetTime] and the notifications [exps] it holds the
    sum of [exps] alone, modulo 2^64. *)
Theorem SetTime_then_NotifyTimers_counts_anew tfd s exps :
  val (NotifyTimers (snd (SetTime tfd s)) exps) =
    wrap_uint64 (fold_right Z.add 0 exps).
Proof. apply NotifyTimers_from_zero, SetTime_val. Qed.

(** X2. [Readiness] and [Read] agree: with a destination of at least 8 bytes,
    [Readiness] reports no event exactly when [Read] returns [ErrWouldBlock]
    and leaves file description and memory as they are. *)
Theorem Readiness_empty_iff_Read_would_block tfd dst m mask :
  sizeofUint64 <= NumBytes dst ->
  (Readiness tfd mask = 0 <->
   Read tfd dst m = ((0, Some ErrWouldBlock), tfd, m)).
Proof.
  intros Hlen. rewrite Readiness_eq.
  destruct (val tfd =? 0) eqn:E;
    [apply Z.eqb_eq in E | apply Z.eqb_neq in E].
  - split; [intros _; apply Read_zero; assumption | reflexivity].
  - split; [intros H; contradiction (ReadableEvents_nonzero H)|].
    rewrite (Read_nonzero tfd dst m Hlen E).
    intros H. exfalso. apply E.
    destruct (CopyOut dst (ByteOrder.PutUint64 (val tfd)) m) as [[n [err|]] m'];
      inversion H as [[He Ht Hm]]; rewrite <- Ht; reflexivity.
Qed.

(** X3. Whatever a [Read] with a destination of at least 8 bytes returns, no
    expiration is pending afterwards: [Readiness] is empty and a second
    [Read] returns [ErrWouldBlock]. *)
Theorem Read_leaves_nothing_pending tfd dst m mask dst' :
  sizeofUint64 <= NumBytes dst -> sizeofUint64 <= NumBytes dst' ->
  let '(r, tfd', m') := Read tfd dst m in
  Readiness tfd' mask = 0 /\
  Read tfd' dst' m' = ((0, Some ErrWouldBlock), tfd', m').
Proof.
  intros Hlen Hlen'.
  assert (forall t m0, val t = 0 ->
            Readiness t mask = 0 /\
            Read t dst' m0 = ((0, Some ErrWouldBlock), t, m0)) as Hz.
  { intros t m0 Ht. split.
    - rewrite Readiness_eq, Ht. reflexivity.
    - apply Read_zero; assumption. }
  destruct (Z.eq_dec (val tfd) 0) as [E|E].
  - rewrite (Read_zero tfd dst m Hlen E). apply Hz, E.
  - rewrite (Read_nonzero tfd dst m Hlen E).
    destruct (CopyOut dst (ByteOrder.PutUint64 (val tfd)) m) as [[n [err|]] m'];
      apply Hz; reflexivity.
Qed.

(** X4. [Read] is all or nothing: it returns either 8 bytes and no error, having
    found a non-zero counter, or 0 bytes and an error. It never changes the
    waiter queue or the timer, and it never raises the counter. *)
Theorem Read_all_or_nothing tfd dst m :
  let '((n, err), tfd', m') := Read tfd dst m in
  ((n = 8 /\ err = None /\ val tfd <> 0 /\ val tfd' = 0) \/
   (n = 0 /\ err <> None)) /\
  events tfd' = events tfd /\ timer tfd' = timer tfd /\
  (val tfd' = val tfd \/ val tfd' = 0).
Proof.
  unfold Read.
  destruct (NumBytes dst <? sizeofUint64).
  { repeat split; auto. }
  destruct (val tfd =? 0) eqn:E; simpl.
  { repeat split; auto. }
  apply Z.eqb_neq in E.
  destruct (CopyOut dst (ByteOrder.PutUint64 (val tfd)) m) as [[n [err|]] m'];
    simpl; repeat split; auto.
Qed.

(** X5. A notification makes the file description readable unless the 64-bit
    counter wraps to exactly zero; the waiters are notified of
    [ReadableEvents] in either case. *)
Theorem NotifyTimer_readable_unless_wrapped tfd exp mask :
  is_uint64 (val tfd) -> is_uint64 exp ->
  (Readiness (NotifyTimer tfd exp) mask = 0 <->
   val tfd + exp = 0 \/ val tfd + exp = 2 ^ 64) /\
  notified (events (NotifyTimer tfd exp)) =
    ReadableEvents :: notified (events tfd).
Proof.
  unfold is_uint64. intros Hv He. split; [|reflexivity].
  rewrite Readiness_eq. simpl. unfold wrap_uint64.
  destruct ((val tfd + exp) mod 2 ^ 64 =? 0) eqn:E;
    [apply Z.eqb_eq in E | apply Z.eqb_neq in E].
  - split; [intros _ | reflexivity].
    change (2 ^ 64) with 18446744073709551616 in *.
    Z.div_mod_to_equations. lia.
  - split; [intros H; contradiction (ReadableEvents_nonzero H)|].
    intros [H|H]; exfalso; apply E; rewrite H; reflexivity.
Qed.

(** *** The counter over a sequence of calls *)

(** The calls that touch a timer fd once it exists. *)
Inductive call : Type :=
  | CallRead (dst : IOSequence)
  | CallSetTime (s : Setting)
  | CallNotifyTimer (exp : Z)
  | CallPauseTimer
  | CallResumeTimer
  | CallEventRegister (e : Entry)
  | CallEventUnregister (e : Entry).

Definition do_call (st : TimerFileDescription * Mem) (c : call)
  : TimerFileDescription * Mem :=
  let '(tfd, m) := st in
  match c with
  | CallRead dst => let '(_, tfd', m') := Read tfd dst m in (tfd', m')
  | CallSetTime s => (snd (SetTime tfd s), m)
  | CallNotifyTimer exp => (NotifyTimer tfd exp, m)
  | CallPauseTimer => (PauseTimer tfd, m)
  | CallResumeTimer => (ResumeTimer tfd, m)
  | CallEventRegister e => (snd (EventRegister tfd e), m)
  | CallEventUnregister e => (EventUnregister tfd e, m)
  end.

Definition do_calls (st : TimerFileDescription * Mem) (cs : list call)
  : TimerFileDescription * Mem :=
  fold_left do_call cs st.

(** The expirations notified since the last [SetTime] and the last [Read]
    that got past its length check, on top of [v] when there was neither. *)
Definition count_call (v : Z) (c : call) : Z :=
  match c with
  | CallRead dst => if NumBytes dst <? sizeofUint64 then v else 0
  | CallSetTime _ => 0
  | CallNotifyTimer exp => v + exp
  | _ => v
  end.

Definition expirations_since_reset (v : Z) (cs : list call) : Z :=
  fold_left count_call cs v.

Lemma wrap_uint64_add_l a b :
  wrap_uint64 (wrap_uint64 a + b) = wrap_uint64 (a + b).
Proof. unfold wrap_uint64. apply Zplus_mod_idemp_l. Qed.

Lemma expirations_since_reset_wrap v cs :
  wrap_uint64 (expirations_since_reset (wrap_uint64 v) cs) =
  wrap_uint64 (expirations_since_reset v cs).
Proof.
  unfold expirations_since_reset. revert v.
  induction cs as [|c cs IH]; intros v.
  - simpl. unfold wrap_uint64. apply Zmod_mod.
  - simpl. destruct c as [dst|s|exp| | |e|e]; simpl; try apply IH.
    + destruct (NumBytes dst <? sizeofUint64); [apply IH | reflexivity].
    + reflexivity.
    + rewrite <- (IH (wrap_uint64 v + exp)), wrap_uint64_add_l. apply IH.
Qed.

Lemma do_call_val tfd m c :
  val (fst (do_call (tfd, m) c)) = wrap_uint64 (count_call (val tfd) c) \/
  val (fst (do_call (tfd, m) c)) = count_call (val tfd) c.
Proof.
  destruct c as [dst|s|exp| | |e|e]; simpl; auto.
  - unfold Read. destruct (NumBytes dst <? sizeofUint64); simpl; auto.
    destruct (negb (val tfd =? 0)); simpl; auto.
    destruct (CopyOut dst (ByteOrder.PutUint64 (val tfd)) m) as [[n [err|]] m'];
      simpl; auto.
  - right. apply SetTime_val.
Qed.

(** X1. The counter is the number of expirations notified since the last
    [SetTime] and the last [Read] with a destination of at least 8 bytes
    (whatever that [Read] returned), modulo 2^64; reads into shorter
    destinations, pausing, resuming and waiters do not change it. *)
Theorem counter_counts_since_last_reset tfd m cs :
  is_uint64 (val tfd) ->
  val (fst (do_calls (tfd, m) cs)) =
    wrap_uint64 (expirations_since_reset (val tfd) cs).
Proof.
  unfold do_calls, expirations_since_reset.
  revert tfd m. induction cs as [|c cs IH]; intros tfd m Hv.
  - simpl. symmetry. apply wrap_uint64_id, Hv.
  - cbn [fold_left]. destruct (do_call (tfd, m) c) as [tfd1 m1] eqn:E.
    pose proof (do_call_val tfd m c) as Hc. rewrite E in Hc. simpl in Hc.
    assert (is_uint64 (val tfd1) /\
            wrap_uint64 (count_call (val tfd) c) = val tfd1) as [Hv1 Heq].
    { destruct Hc as [-> | Hc].
      - split; [apply wrap_uint64_range | reflexivity].
      - assert (is_uint64 (val tfd1)) as Hr.
        { rewrite Hc. destruct c as [dst|s|exp| | |e|e]; simpl in *;
            try exact Hv; try (unfold is_uint64; lia).
          - destruct (NumBytes dst <? sizeofUint64);
              [exact Hv | unfold is_uint64; lia].
          - inversion E; subst tfd1. simpl in Hc. rewrite <- Hc.
            apply wrap_uint64_range. }
        split; [exact Hr|]. rewrite <- Hc. apply wrap_uint64_id, Hr. }
    rewrite (IH tfd1 m1 Hv1), <- Heq.
    apply expirations_since_reset_wrap.
Qed.

(** *** What Read returns, over a sequence of calls *)

Lemma do_calls_counter tfd m cs :
  is_uint64 (val tfd) ->
  is_uint64 (val (fst (do_calls (tfd, m) cs))) /\
  val (fst (do_calls (tfd, m) cs)) =
    wrap_uint64 (expirations_since_reset (val tfd) cs).
Proof.
  intros Hv.
  assert (val (fst (do_calls (tfd, m) cs)) =
          wrap_uint64 (expirations_since_reset (val tfd) cs)) as Heq.
  { unfold do_calls, expirations_since_reset.
    revert tfd m Hv. induction cs as [|c cs IH]; intros tfd m Hv.
    - simpl. symmetry. apply wrap_uint64_id, Hv.
    - cbn [fold_left]. destruct (do_call (tfd, m) c) as [tfd1 m1] eqn:E.
      pose proof (do_call_val tfd m c) as Hc. rewrite E in Hc. simpl in Hc.
      assert (val tfd1 = wrap_uint64 (count_call (val tfd) c)) as Hc1.
      { destruct Hc as [Hc|Hc]; [exact Hc|]. rewrite Hc.
        symmetry. apply wrap_uint64_id.
        destruct c as [dst|s|exp| | |e|e]; simpl in *;
          try exact Hv; try (unfold is_uint64; lia).
        - destruct (NumBytes dst <? sizeofUint64);
            [exact Hv | unfold is_uint64; lia].
        - inversion E; subst tfd1. simpl in Hc. rewrite <- Hc.
          apply wrap_uint64_range. }
      rewrite (IH tfd1 m1) by (rewrite Hc1; apply wrap_uint64_range).
      rewrite Hc1. apply expirations_since_reset_wrap. }
  split; [rewrite Heq; apply wrap_uint64_range | exact Heq].
Qed.

(** The expirations notified since the last [SetTime] and the last [Read]
    that returned [nil], on top of [v] when there was neither: the count
    the spec has [Read] return. Which reads return [nil] depends on the
    memory, so the file description and the memory are carried along. *)
Definition count_call_successful
  (acc : Z * (TimerFileDescription * Mem)) (c : call)
  : Z * (TimerFileDescription * Mem) :=
  let '(v, st) := acc in
  (match c with
   | CallRead dst =>
       match snd (fst (fst (Read (fst st) dst (snd st)))) with
       | None => 0
       | Some _ => v
       end
   | CallSetTime _ => 0
   | CallNotifyTimer exp => v + exp
   | _ => v
   end,
   do_call st c).

Definition expirations_since_successful_read (v : Z)
  (st : TimerFileDescription * Mem) (cs : list call) : Z :=
  fst (fold_left count_call_successful cs (v, st)).

(** The claim of the spec, for a file description and the calls made on it:
    a [Read] into a destination with room, whose copy-out succeeds, returns 8
    bytes and copies out the count of the expirations since the last
    successful read or [SetTime]. *)
Definition Read_returns_count_since_successful_read
  (tfd : TimerFileDescription) (m : Mem) (cs : list call) (dst : IOSequence)
  : Prop :=
  let st := do_calls (tfd, m) cs in
  let v := wrap_uint64
             (expirations_since_successful_read (val tfd) (tfd, m) cs) in
  sizeofUint64 <= NumBytes dst -> v <> 0 ->
  forall n m',
    CopyOut dst (ByteOrder.PutUint64 v) (snd st) = ((n, None), m') ->
    Read (fst st) dst (snd st) = ((8, None), set_val (fst st) 0, m').

(** C7, as amended. After any sequence of calls on a timer fd, let [v] be the
    expirations notified since the last [SetTime] and the last [Read] with a
    destination of at least 8 bytes, whether or not that [Read] could copy
    out, modulo 2^64. With a destination of at least 8 bytes: when [v] is not
    zero and the copy-out succeeds, [Read] returns 8 and [nil], the 8 bytes
    copied out are the little-endian encoding of [v], the counter is zero
    afterwards, and a [Read] that follows at once returns [ErrWouldBlock];
    when [v] is zero, [Read] returns [ErrWouldBlock] and file description and
    memory are as before. *)
Theorem Read_returns_expirations_since_reset tfd m cs dst :
  is_uint64 (val tfd) -> sizeofUint64 <= NumBytes dst ->
  let st := do_calls (tfd, m) cs in
  let v := wrap_uint64 (expirations_since_reset (val tfd) cs) in
  (v <> 0 ->
   forall n m',
     CopyOut dst (ByteOrder.PutUint64 v) (snd st) = ((n, None), m') ->
     Read (fst st) dst (snd st) = ((8, None), set_val (fst st) 0, m') /\
     length (ByteOrder.PutUint64 v) = 8%nat /\
     ByteOrder.Uint64 (ByteOrder.PutUint64 v) = Some v /\
     val (snd (fst (Read (fst st) dst (snd st)))) = 0 /\
     Read (set_val (fst st) 0) dst m' =
       ((0, Some ErrWouldBlock), set_val (fst st) 0, m')) /\
  (v = 0 ->
   Read (fst st) dst (snd st) = ((0, Some ErrWouldBlock), fst st, snd st)).
Proof.
  intros Hv Hlen st v.
  destruct (do_calls_counter tfd m cs Hv) as [Hrange Hval].
  fold st in Hrange, Hval. fold v in Hval.
  split.
  - intros Hnz n m' Hcopy. rewrite <- Hval in Hcopy.
    assert (val (fst st) <> 0) as Hnz' by (rewrite Hval; exact Hnz).
    rewrite (Read_nonzero (fst st) dst (snd st) Hlen Hnz'), Hcopy.
    rewrite <- Hval. repeat split.
    + apply ByteOrder.Uint64_PutUint64, Hrange.
    + apply Read_zero; [exact Hlen | reflexivity].
  - intros Hz. apply Read_zero; [exact Hlen | rewrite Hval; exact Hz].
Qed.

(** *** New *)

(** The clock and the VFS objects [New] works with are abstract, like the
    timer: [clock.NewTimer] makes the timer, [NewAnonVirtualDentry] the
    anonymous dentry the description is initialised on. *)
Context {Clock VirtualFilesystem VirtualDentry : Type}.

Variable Clock_NewTimer : Clock -> Timer.
Variable NewAnonVirtualDentry : VirtualFilesystem -> string -> VirtualDentry.

Record FileDescriptionOptions : Type := {
  UseDentryMetadata : bool;
  DenyPRead : bool;
  DenyPWrite : bool
}.

(** [vfsfd.Init(impl, flags, mount, dentry, opts)]: its error, [None] for
    [nil]. *)
Variable FileDescription_Init :
  Z -> VirtualDentry -> FileDescriptionOptions -> option error.

(** [New] returns a new timer fd: a zero-valued [TimerFileDescription] with
    the clock's timer, or the error of [Init]. *)
Definition New (vfsObj : VirtualFilesystem) (clock : Clock) (flags : Z)
  : TimerFileDescription + error :=
  let vd := NewAnonVirtualDentry vfsObj "[timerfd]" in
  let tfd := {| events := {| entries := []; notified := [] |};
                timer := Clock_NewTimer clock;
                val := 0 |} in
  match FileDescription_Init flags vd
          {| UseDentryMetadata := true; DenyPRead := true;
             DenyPWrite := true |} with
  | Some err => inr err
  | None => inl tfd
  end.

(** X6. A timer fd that [New] returns has counted no expiration and has no
    waiter: it is not readable, and a [Read] with a destination of at least
    8 bytes returns [ErrWouldBlock]. *)
Theorem New_has_nothing_pending vfsObj clock flags tfd :
  New vfsObj clock flags = inl tfd ->
  entries (events tfd) = [] /\
  (forall mask, Readiness tfd mask = 0) /\
  (forall dst m, sizeofUint64 <= NumBytes dst ->
     Read tfd dst m = ((0, Some ErrWouldBlock), tfd, m)).
Proof.
  unfold New. intros H.
  destruct (FileDescription_Init _ _ _); [discriminate|].
  inversion H; subst tfd; clear H.
  split; [reflexivity|]. split; [reflexivity|].
  intros dst m Hlen. apply Read_zero; [exact Hlen | reflexivity].
Qed.

End WithTimerAndMemory.

Arguments IOSequence : clear implicits.
Arguments TimerFileDescription : clear implicits.

(** *** Concrete file descriptions and destinations *)

(** A file description with counter [v], no waiters, over a unit timer. *)
Definition tfd_with (v : Z) : TimerFileDescription unit :=
  {| events := {| entries := []; notified := [] |}; timer := tt; val := v |}.

(** A destination of [n] bytes whose memory is the byte list written last. *)
Definition buffer_dst (n : Z) : IOSequence (list Z) :=
  {| NumBytes := n;
     CopyOut := fun src _ => ((Z.of_nat (length src), None), src) |}.

(** A destination of [n] bytes at an unmapped address: the copy-out fails. *)
Definition faulting_dst (n : Z) : IOSequence (list Z) :=
  {| NumBytes := n; CopyOut := fun _ m => ((0, Some EFAULT), m) |}.

Example Read_three_expirations :
  Read (tfd_with 3) (buffer_dst 8) [] =
    ((8, None), tfd_with 0, [3; 0; 0; 0; 0; 0; 0; 0]).
Proof. reflexivity. Qed.

Example Read_faulting :
  Read (tfd_with 3) (faulting_dst 8) [] = ((0, Some EFAULT), tfd_with 0, []).
Proof. reflexivity. Qed.

(** C1, as the spec states it, fails: three expirations pending, the copy-out
    faults, and the counter is zero after the read. *)
Lemma Read_failed_copy_out_counterexample :
  ~ failed_copy_out_keeps_counter (tfd_with 3) (faulting_dst 8) [].
Proof.
  intros H.
  destruct (H 0 EFAULT []) as [_ Hval].
  - unfold sizeofUint64. simpl. lia.
  - discriminate.
  - reflexivity.
  - discriminate Hval.
Qed.

Lemma Read_copy_out_error_consumes_counter_witness :
  Read (tfd_with 3) (faulting_dst 8) [] = ((0, Some EFAULT), tfd_with 0, []) /\
  val (snd (fst (Read (tfd_with 3) (faulting_dst 8) []))) = 0.
Proof.
  apply (Read_copy_out_error_consumes_counter
           (tfd_with 3) (faulting_dst 8) [] 0 EFAULT []).
  - unfold sizeofUint64. simpl. lia.
  - discriminate.
  - reflexivity.
Defined.

Lemma Read_returns_expirations_and_resets_witness :
  Read (tfd_with 3) (buffer_dst 8) [] =
    ((8, None), tfd_with 0, [3; 0; 0; 0; 0; 0; 0; 0]) /\
  Read (tfd_with 0) (buffer_dst 8) [3; 0; 0; 0; 0; 0; 0; 0] =
    ((0, Some ErrWouldBlock), tfd_with 0, [3; 0; 0; 0; 0; 0; 0; 0]).
Proof.
  assert (sizeofUint64 <= NumBytes (buffer_dst 8)) as Hlen
    by (unfold sizeofUint64; simpl; lia).
  assert (is_uint64 (val (tfd_with 3))) as Hrange
    by (unfold is_uint64; simpl; lia).
  destruct (Read_returns_expirations_and_resets
              (tfd_with 3) (buffer_dst 8) [] Hlen Hrange) as [Hnz _].
  assert (val (tfd_with 3) <> 0) as Hv by discriminate.
  destruct (Hnz Hv 8 [3; 0; 0; 0; 0; 0; 0; 0] eq_refl)
    as (Hread & _ & _ & _ & Hnext).
  split; [exact Hread | exact Hnext].
Defined.

Lemma Read_short_buffer_EINVAL_witness :
  Read (tfd_with 3) (buffer_dst 7) [] = ((0, Some EINVAL), tfd_with 3, []) /\
  val (snd (fst (Read (tfd_with 3) (buffer_dst 7) []))) = 3.
Proof.
  apply (Read_short_buffer_EINVAL (tfd_with 3) (buffer_dst 7) []).
  unfold sizeofUint64. simpl. lia.
Defined.

(** C8, as the spec states it, fails: with one expiration pending,
    [Readiness 0] is [ReadableEvents], whose bit 0 is not in the empty
    mask. *)
Lemma Readiness_not_subset_counterexample :
  Readiness (tfd_with 1) 0 = ReadableEvents /\
  Readiness (tfd_with 1) 0 <> 0 /\
  ~ mask_subset (Readiness (tfd_with 1) 0) 0.
Proof.
  split; [reflexivity|]. split; [discriminate|].
  intros H. specialize (H 0 (Z.le_refl 0) eq_refl). discriminate H.
Qed.

(** *** The composition results at concrete file descriptions *)

Lemma Readiness_empty_iff_Read_would_block_witness :
  Readiness (tfd_with 0) 1 = 0 <->
  Read (tfd_with 0) (buffer_dst 8) [] =
    ((0, Some ErrWouldBlock), tfd_with 0, []).
Proof.
  apply (Readiness_empty_iff_Read_would_block (tfd_with 0) (buffer_dst 8) [] 1).
  unfold sizeofUint64. simpl. lia.
Defined.

Lemma Read_leaves_nothing_pending_witness :
  Readiness (tfd_with 0) 1 = 0 /\
  Read (tfd_with 0) (buffer_dst 16) [] =
    ((0, Some ErrWouldBlock), tfd_with 0, []).
Proof.
  apply (Read_leaves_nothing_pending
           (tfd_with 3) (faulting_dst 8) [] 1 (buffer_dst 16)).
  - unfold sizeofUint64. simpl. lia.
  - unfold sizeofUint64. simpl. lia.
Defined.

Lemma NotifyTimer_readable_unless_wrapped_witness :
  (Readiness (NotifyTimer (tfd_with (2 ^ 64 - 1)) 1) 1 = 0 <->
   val (tfd_with (2 ^ 64 - 1)) + 1 = 0 \/
   val (tfd_with (2 ^ 64 - 1)) + 1 = 2 ^ 64) /\
  notified (events (NotifyTimer (tfd_with (2 ^ 64 - 1)) 1)) =
    ReadableEvents :: notified (events (tfd_with (2 ^ 64 - 1))).
Proof.
  apply (NotifyTimer_readable_unless_wrapped (tfd_with (2 ^ 64 - 1)) 1 1).
  - unfold is_uint64. simpl. lia.
  - unfold is_uint64. lia.
Defined.

(** Calls on a file description over a unit timer. *)
Abbreviation do_unit_calls :=
  (do_calls (Timer := unit) (Setting := unit) (Time := unit)
     (fun _ _ => (tt, tt, tt)) (fun _ => tt) (fun _ => tt)).

Definition five_calls : list (call (Setting := unit) (Mem := list Z)) :=
  [CallNotifyTimer 2; CallNotifyTimer 3; CallRead (buffer_dst 4);
   CallPauseTimer; CallNotifyTimer 1].

Example six_expirations_pending :
  val (fst (do_unit_calls (tfd_with 7, []) (CallSetTime tt :: five_calls))) = 6
  /\ val (fst (do_unit_calls (tfd_with 7, [])
                 (five_calls ++ [CallRead (faulting_dst 8)]))) = 0.
Proof. split; reflexivity. Qed.

(** Three expirations, a read that cannot copy out, two more expirations. *)
Definition calls_with_failed_read : list (call (Setting := unit) (Mem := list Z)) :=
  [CallNotifyTimer 3; CallRead (faulting_dst 8); CallNotifyTimer 2].

Example Read_after_failed_read :
  expirations_since_successful_read
    (fun _ _ => (tt, tt, tt)) (fun _ => tt) (fun _ => tt)
    0 (tfd_with 0, []) calls_with_failed_read = 5 /\
  expirations_since_reset 0 calls_with_failed_read = 2 /\
  snd (Read (fst (do_unit_calls (tfd_with 0, []) calls_with_failed_read))
            (buffer_dst 8)
            (snd (do_unit_calls (tfd_with 0, []) calls_with_failed_read)))
    = [2; 0; 0; 0; 0; 0; 0; 0].
Proof. split; [|split]; vm_compute; reflexivity. Qed.

(** C7, as the spec states it, fails: three expirations, a [Read] whose
    copy-out faults, two more expirations. Five expirations have been
    notified since the last successful read, and the [Read] that follows
    copies out 2: the failed read has consumed three. *)
Lemma Read_count_since_successful_read_counterexample :
  ~ Read_returns_count_since_successful_read
      (fun _ _ => (tt, tt, tt)) (fun _ => tt) (fun _ => tt)
      (tfd_with 0) [] calls_with_failed_read (buffer_dst 8).
Proof.
  intros Hclaim.
  specialize (Hclaim ltac:(unfold sizeofUint64; simpl; lia)
                     ltac:(discriminate)
                     8 [5; 0; 0; 0; 0; 0; 0; 0] eq_refl).
  vm_compute in Hclaim. discriminate Hclaim.
Qed.

Lemma Read_returns_expirations_since_reset_witness :
  let st := do_unit_calls (tfd_with 0, []) calls_with_failed_read in
  Read (fst st) (buffer_dst 8) (snd st)
    = ((8, None), set_val (fst st) 0, [2; 0; 0; 0; 0; 0; 0; 0]) /\
  Read (set_val (fst st) 0) (buffer_dst 8) [2; 0; 0; 0; 0; 0; 0; 0]
    = ((0, Some ErrWouldBlock), set_val (fst st) 0,
       [2; 0; 0; 0; 0; 0; 0; 0]).
Proof.
  assert (is_uint64 (val (tfd_with 0))) as Hv
    by (unfold is_uint64; simpl; lia).
  assert (sizeofUint64 <= NumBytes (buffer_dst 8)) as Hlen
    by (unfold sizeofUint64; simpl; lia).
  destruct (Read_returns_expirations_since_reset
              (fun _ _ => (tt, tt, tt)) (fun _ => tt) (fun _ => tt)
              (tfd_with 0) [] calls_with_failed_read (buffer_dst 8) Hv Hlen)
    as [Hnz _].
  destruct (Hnz ltac:(discriminate) 8 [2; 0; 0; 0; 0; 0; 0; 0] eq_refl)
    as (Hread & _ & _ & _ & Hnext).
  split; [exact Hread | exact Hnext].
Defined.

Lemma counter_counts_since_last_reset_witness :
  val (fst (do_unit_calls (tfd_with 7, []) five_calls)) =
    wrap_uint64 (expirations_since_reset (val (tfd_with 7)) five_calls).
Proof.
  apply (counter_counts_since_last_reset
           (fun _ _ => (tt, tt, tt)) (fun _ => tt) (fun _ => tt)
           (tfd_with 7) [] five_calls).
  unfold is_uint64. simpl. lia.
Defined.

(** On a VFS on which [Init] succeeds. *)
Lemma New_has_nothing_pending_witness :
  entries (events (tfd_with 0)) = [] /\
  (forall mask, Readiness (tfd_with 0) mask = 0) /\
  (forall (dst : IOSequence (list Z)) m, sizeofUint64 <= NumBytes dst ->
     Read (tfd_with 0) dst m = ((0, Some ErrWouldBlock), tfd_with 0, m)).
Proof.
  apply (New_has_nothing_pending (Clock := unit) (VirtualFilesystem := unit)
           (VirtualDentry := unit)
           (fun _ => tt) (fun _ _ => tt) (fun _ _ _ => None) tt tt 0).
  reflexivity.
Defined.

End Timerfd.

(** ** Go library functions used by the control plane *)

Module Go.

(** [strings.Join]. *)
Fixpoint Join (elems : list string) (sep : string) : string :=
  match elems with
  | [] => ""
  | [x] => x
  | x :: rest => x +:+ sep +:+ Join rest sep
  end.

(** [strconv.Itoa]: decimal, with a leading minus sign below zero. *)
Definition Itoa (i : Z) : string := NilZero.string_of_int (Z.to_int i).

(** [err.Error()], as [%v] prints an error. *)
Definition Error (e : error) : string :=
  match e with
  | EINVAL => "invalid argument"
  | ErrWouldBlock => "operation would block"
  | EFAULT => "bad address"
  | Errorf msg => msg
  | NotRunning => "container is not running"
  | NotPaused => "container is not paused"
  | SpecMismatch field => field +:+ " does not match across checkpoint restore"
  end.

(** [strconv.Atoi] on a 64-bit platform: an optional sign, then one or more
    decimal digits, the value within [int64]; [None] stands for the
    [*NumError] of any other string. *)
Definition Atoi (s : string) : option Z :=
  let '(neg, digits) :=
    match s with
    | String "+" r => (false, r)
    | String "-" r => (true, r)
    | _ => (false, s)
    end in
  match digits with
  | "" => None
  | _ =>
      match NilEmpty.uint_of_string digits with
      | None => None
      | Some u =>
          let v := if neg : bool then - Z.of_uint u else Z.of_uint u in
          if (- 2 ^ 63 <=? v) && (v <? 2 ^ 63) then Some v else None
      end
  end.

(** Whether the byte [c] occurs in [s]. *)
Fixpoint IndexByte_found (s : string) (c : ascii) : bool :=
  match s with
  | "" => false
  | String a r => Ascii.eqb a c || IndexByte_found r c
  end.

(** [strings.Split(s, sep)] for a non-empty separator: [s] is cut at the
    occurrences of [sep], found from the left and not overlapping. [skip]
    counts the bytes of a separator still to pass over, [cur] is the piece
    read so far. *)
Fixpoint Split_from (s sep : string) (skip : nat) (cur : string) : list string :=
  match s with
  | "" => [cur]
  | String a r =>
      match skip with
      | S k => Split_from r sep k cur
      | O =>
          if String.prefix sep s
          then cur :: Split_from r sep (String.length sep - 1) ""
          else Split_from r sep O (cur +:+ String a "")
      end
  end.

Definition Split (s sep : string) : list string := Split_from s sep 0 "".

(** [strings.TrimLeft], [strings.TrimRight] and [strings.Trim] ([bytes.Trim]
    on the bytes of a string) for a cutset of ASCII bytes. *)
Fixpoint TrimLeft (s cutset : string) : string :=
  match s with
  | "" => ""
  | String a r => if IndexByte_found cutset a then TrimLeft r cutset else s
  end.

Fixpoint TrimRight (s cutset : string) : string :=
  match s with
  | "" => ""
  | String a r =>
      match TrimRight r cutset with
      | "" => if IndexByte_found cutset a then "" else String a ""
      | r' => String a r'
      end
  end.

Definition Trim (s cutset : string) : string :=
  TrimRight (TrimLeft s cutset) cutset.

Example Split_commas :
  Split "a, b, c" ", " = ["a"; "b"; "c"] /\ Split "abc" "," = ["abc"] /\
  Split "" "," = [""] /\ Split ",," "," = [""; ""; ""].
Proof. repeat split. Qed.

Example Atoi_strings :
  Atoi "-12" = Some (-12) /\ Atoi "+7" = Some 7 /\ Atoi "007" = Some 7 /\
  Atoi "" = None /\ Atoi "-" = None /\ Atoi "1x" = None /\
  Atoi "9223372036854775808" = None /\
  Atoi "-9223372036854775808" = Some (- 2 ^ 63).
Proof. repeat split. Qed.

Example Trim_zeros :
  Trim (String zero (String zero ("12" +:+ String zero ""))) (String zero "")
    = "12".
Proof. reflexivity. Qed.

(** *** Facts about the library functions *)

Lemma app_String x (a b : string) : String x a +:+ b = String x (a +:+ b).
Proof. reflexivity. Qed.

Lemma string_app_nil_l (a : string) : "" +:+ a = a.
Proof. reflexivity. Qed.

Lemma string_app_assoc (a b c : string) : (a +:+ b) +:+ c = a +:+ (b +:+ c).
Proof.
  induction a as [|x a IH]; [reflexivity|].
  rewrite !app_String, IH. reflexivity.
Qed.

Lemma string_app_nil_r (a : string) : a +:+ "" = a.
Proof.
  induction a as [|x a IH]; [reflexivity|].
  rewrite app_String, IH. reflexivity.
Qed.

Lemma IndexByte_found_app a b c :
  IndexByte_found (a +:+ b) c = IndexByte_found a c || IndexByte_found b c.
Proof.
  induction a as [|x a IH]; [reflexivity|].
  rewrite app_String. simpl. rewrite IH, orb_assoc. reflexivity.
Qed.

(** The decimal digits and the minus sign. *)
Definition is_decimal (c : ascii) : bool :=
  IndexByte_found "-0123456789" c.

Lemma string_of_uint_decimal d c :
  is_decimal c = false -> IndexByte_found (NilEmpty.string_of_uint d) c = false.
Proof.
  intros Hc. induction d; simpl; try reflexivity; rewrite IHd, orb_false_r;
    unfold is_decimal in Hc; simpl in Hc;
    repeat (apply orb_false_elim in Hc as [? Hc]); assumption.
Qed.

Lemma Itoa_decimal n c :
  is_decimal c = false -> IndexByte_found (Itoa n) c = false.
Proof.
  intros Hc. unfold Itoa.
  assert (forall d, IndexByte_found (NilZero.string_of_uint d) c = false) as Hu.
  { intros d. destruct d; try apply (string_of_uint_decimal _ _ Hc).
    simpl. rewrite orb_false_r. unfold is_decimal in Hc; simpl in Hc.
    repeat (apply orb_false_elim in Hc as [? Hc]); assumption. }
  destruct (Z.to_int n); simpl; [apply Hu|].
  rewrite Hu, orb_false_r.
  unfold is_decimal in Hc; simpl in Hc.
  repeat (apply orb_false_elim in Hc as [? Hc]); assumption.
Qed.

Lemma Atoi_digits (neg : bool) (d : Decimal.uint) :
  d <> Decimal.Nil ->
  is_int64 (if neg then - Z.of_uint d else Z.of_uint d) ->
  Atoi ((if neg then "-" else "") +:+ NilEmpty.string_of_uint d) =
    Some (if neg then - Z.of_uint d else Z.of_uint d).
Proof.
  unfold is_int64. intros Hd Hr. unfold Atoi.
  assert (NilEmpty.uint_of_string (NilEmpty.string_of_uint d) = Some d) as Hu
    by apply NilEmpty.usu.
  set (v := if neg then - Z.of_uint d else Z.of_uint d) in *.
  assert ((- 2 ^ 63 <=? v) && (v <? 2 ^ 63) = true) as Hb.
  { apply andb_true_intro. split; [apply Z.leb_le | apply Z.ltb_lt]; lia. }
  destruct neg, d; try congruence; simpl NilEmpty.string_of_uint in *;
    rewrite ?app_String, string_app_nil_l;
    cbv iota beta; rewrite Hu; cbv iota beta zeta; fold v; rewrite Hb;
    reflexivity.
Qed.

(** [Atoi] reads back what [Itoa] prints. *)
Lemma Atoi_Itoa n : is_int64 n -> Atoi (Itoa n) = Some n.
Proof.
  unfold Itoa. intros Hn. destruct n as [|p|p]; [reflexivity| |].
  - pose proof (DecimalPos.Unsigned.to_uint_nonnil p) as Hnil.
    assert (Z.of_uint (Pos.to_uint p) = Z.pos p) as Hz
      by (unfold Z.of_uint; rewrite DecimalPos.Unsigned.of_to; reflexivity).
    simpl Z.to_int. simpl NilZero.string_of_int.
    replace (NilZero.string_of_uint (Pos.to_uint p))
      with ("" +:+ NilEmpty.string_of_uint (Pos.to_uint p))
      by (destruct (Pos.to_uint p); [congruence | reflexivity ..]).
    rewrite (Atoi_digits false), Hz; [reflexivity | exact Hnil |].
    rewrite Hz. exact Hn.
  - pose proof (DecimalPos.Unsigned.to_uint_nonnil p) as Hnil.
    assert (Z.of_uint (Pos.to_uint p) = Z.pos p) as Hz
      by (unfold Z.of_uint; rewrite DecimalPos.Unsigned.of_to; reflexivity).
    simpl Z.to_int. simpl NilZero.string_of_int.
    replace (String "-" (NilZero.string_of_uint (Pos.to_uint p)))
      with ("-" +:+ NilEmpty.string_of_uint (Pos.to_uint p))
      by (destruct (Pos.to_uint p); [congruence | reflexivity ..]).
    rewrite (Atoi_digits true), Hz; [reflexivity | exact Hnil |].
    rewrite Hz. exact Hn.
Qed.

(** [Itoa] prints different numbers differently. *)
Lemma Itoa_inj a b : Itoa a = Itoa b -> a = b.
Proof.
  unfold Itoa. intros H. apply DecimalZ.to_int_inj.
  assert (forall n, NilZero.int_of_string (NilZero.string_of_int (Z.to_int n))
                    = Some (Z.to_int n)) as Hisi.
  { intros n. apply NilZero.isi; destruct n; simpl; try discriminate;
      intros [=E]; apply (DecimalPos.Unsigned.to_uint_nonnil _ E). }
  pose proof (Hisi a) as Ha. rewrite H, Hisi in Ha. congruence.
Qed.

Lemma prefix_byte c a r : String.prefix (String c "") (String a r) = Ascii.eqb a c.
Proof.
  simpl. destruct (ascii_dec c a) as [->|Hne].
  - rewrite Ascii.eqb_refl. destruct r; reflexivity.
  - symmetry. apply Ascii.eqb_neq. congruence.
Qed.

(** Cutting at a one-byte separator: a piece without the separator is read
    up to the next separator, or to the end. *)
Lemma Split_from_piece x c cur :
  IndexByte_found x c = false ->
  Split_from x (String c "") 0 cur = [cur +:+ x].
Proof.
  revert cur. induction x as [|a x IH]; intros cur Hx.
  - simpl. rewrite string_app_nil_r. reflexivity.
  - simpl in Hx. apply orb_false_elim in Hx as [Ha Hx].
    cbn [Split_from]. rewrite prefix_byte, Ha, IH by exact Hx.
    rewrite string_app_assoc. reflexivity.
Qed.

Lemma Split_from_sep x c rest cur :
  IndexByte_found x c = false ->
  Split_from (x +:+ String c rest) (String c "") 0 cur =
    (cur +:+ x) :: Split_from rest (String c "") 0 "".
Proof.
  revert cur. induction x as [|a x IH]; intros cur Hx.
  - change ("" +:+ String c rest) with (String c rest).
    cbn [Split_from]. rewrite prefix_byte, Ascii.eqb_refl, string_app_nil_r.
    reflexivity.
  - simpl in Hx. apply orb_false_elim in Hx as [Ha Hx].
    rewrite app_String. cbn [Split_from].
    rewrite prefix_byte, Ha, IH by exact Hx.
    rewrite string_app_assoc. reflexivity.
Qed.

(** [strings.Repeat]. *)
Fixpoint Repeat (s : string) (count : nat) : string :=
  match count with
  | O => ""
  | S n => s +:+ Repeat s n
  end.

Lemma TrimRight_none s c :
  IndexByte_found s c = false -> TrimRight s (String c "") = s.
Proof.
  induction s as [|a s IH]; intros Hs; [reflexivity|].
  simpl in Hs. apply orb_false_elim in Hs as [Ha Hs].
  cbn [TrimRight]. rewrite IH by exact Hs.
  destruct s; [|reflexivity].
  simpl. rewrite Ascii.eqb_sym, Ha. reflexivity.
Qed.

Lemma TrimLeft_none s c :
  IndexByte_found s c = false -> TrimLeft s (String c "") = s.
Proof.
  destruct s as [|a s]; intros Hs; [reflexivity|].
  simpl in Hs. apply orb_false_elim in Hs as [Ha Hs].
  simpl. rewrite Ascii.eqb_sym, Ha. reflexivity.
Qed.

(** Trimming a byte takes away a run of it in front of a string in which it
    does not occur. *)
Lemma Trim_leading_bytes s c k :
  IndexByte_found s c = false ->
  Trim (Repeat (String c "") k +:+ s) (String c "") = s.
Proof.
  intros Hs. unfold Trim.
  assert (TrimLeft (Repeat (String c "") k +:+ s) (String c "") = s) as ->.
  { induction k as [|k IH]; [apply TrimLeft_none, Hs|].
    simpl. rewrite Ascii.eqb_refl. simpl. exact IH. }
  apply TrimRight_none, Hs.
Qed.
(** Two strings that agree up to and including the first occurrence of a
    byte have the same piece in front of it. *)
Lemma app_byte_inj x x' c y y' :
  IndexByte_found x c = false -> IndexByte_found x' c = false ->
  x +:+ String c y = x' +:+ String c y' -> x = x'.
Proof.
  revert x'. induction x as [|a x IH]; intros [|a' x'] Hx Hx' Heq.
  - reflexivity.
  - rewrite string_app_nil_l, app_String in Heq. inversion Heq; subst.
    simpl in Hx'. rewrite Ascii.eqb_refl in Hx'. discriminate.
  - rewrite string_app_nil_l, app_String in Heq. inversion Heq; subst.
    simpl in Hx. rewrite Ascii.eqb_refl in Hx. discriminate.
  - rewrite !app_String in Heq. inversion Heq; subst.
    simpl in Hx, Hx'.
    apply orb_false_elim in Hx as [_ Hx]. apply orb_false_elim in Hx' as [_ Hx'].
    f_equal. apply IH; assumption.
Qed.

End Go.

(** ** pkg/sentry/control: Lifecycle *)

Module Control.

(** [vfs.MountOptions], the fields [createNewMountNamespace] sets. *)
Record GetFilesystemOptions : Type := {
  Data : string;
  InternalData_UniqueID : string
}.

Record MountOptions : Type := {
  ReadOnly : bool;
  GetFilesystemOpts : GetFilesystemOptions;
  InternalMount : bool
}.

(** Modelled from the spec: [vfs.MountNamespace] ([pkg/sentry/vfs] is not
    part of the sources at hand). "A rooted tree of mounts; each mount has a
    source, type, options, and a destination path within its parent";
    reference counted. The tree is kept as the root mount and the list of the
    mounts beneath it. *)
Record Mount : Type := {
  mnt_source : string;
  mnt_fstype : string;
  mnt_opts : MountOptions;
  mnt_destination : string
}.

Record MountNamespace : Type := {
  mns_root : Mount;
  mns_mounts : list Mount;
  mns_refs : Z
}.

Definition MountNamespace_IncRef (mns : MountNamespace) : MountNamespace :=
  {| mns_root := mns_root mns; mns_mounts := mns_mounts mns;
     mns_refs := mns_refs mns + 1 |}.

(** [SentryMount] contains the mount config for the container. *)
Record SentryMount : Type := { Target : string; FsType : string }.


(** What a call of the control plane comes back with: a returned error
    ([None] for [nil]) or a run-time panic. *)
Inductive outcome : Type :=
  | Returned (err : option error)
  | Panicked.

(** The number of sends on [StartedCh] that [k] successful calls make, from
    a counter that stands at [c], with [NumContainers = N]. *)
Fixpoint signals (N c : Z) (k : nat) : nat :=
  match k with
  | O => O
  | S k' =>
      let c' := wrap_int32 (c + 1) in
      ((if decide (N = c') then 1 else 0) + signals N c' k')%nat
  end.

Lemma wrap_int32_succ c : wrap_int32 (wrap_int32 c + 1) = wrap_int32 (c + 1).
Proof.
  unfold wrap_int32.
  replace (((c + 2 ^ 31) mod 2 ^ 32 - 2 ^ 31 + 1 + 2 ^ 31))
    with ((c + 2 ^ 31) mod 2 ^ 32 + 1) by lia.
  replace (c + 1 + 2 ^ 31) with ((c + 2 ^ 31) + 1) by lia.
  rewrite Zplus_mod_idemp_l. reflexivity.
Qed.

Lemma signals_wrap N c k : signals N (wrap_int32 c) k = signals N c k.
Proof.
  destruct k as [|k]; [reflexivity|].
  simpl. rewrite wrap_int32_succ. reflexivity.
Qed.

Lemma signals_S N c k :
  signals N c (S k) =
    ((if decide (N = wrap_int32 (c + 1)) then 1 else 0) + signals N (c + 1) k)%nat.
Proof. simpl. rewrite signals_wrap. reflexivity. Qed.

Lemma signals_app N c k1 k2 :
  signals N c (k1 + k2) =
    (signals N c k1 + signals N (c + Z.of_nat k1) k2)%nat.
Proof.
  revert c. induction k1 as [|k1 IH]; intros c.
  - simpl. replace (c + Z.of_nat 0) with c by lia. reflexivity.
  - replace (S k1 + k2)%nat with (S (k1 + k2)) by reflexivity.
    rewrite !signals_S, IH.
    replace (c + 1 + Z.of_nat k1) with (c + Z.of_nat (S k1)) by lia.
    lia.
Qed.

Lemma signals_none N c k :
  (forall j, 1 <= j <= Z.of_nat k -> wrap_int32 (c + j) <> N) ->
  signals N c k = O.
Proof.
  revert c. induction k as [|k IH]; intros c Hno; [reflexivity|].
  rewrite signals_S.
  rewrite decide_False.
  - rewrite IH; [reflexivity|].
    intros j Hj. replace (c + 1 + j) with (c + (1 + j)) by lia.
    apply Hno. lia.
  - intros HN. apply (Hno 1); [lia | symmetry; exact HN].
Qed.

Lemma signals_one N c :
  wrap_int32 (c + 1) = N -> signals N c 1 = 1%nat.
Proof. intros H. simpl. rewrite decide_True; [reflexivity | symmetry; exact H]. Qed.

(** Between two counter values congruent modulo 2^32 lie at least 2^32
    increments. *)
Lemma wrap_int32_neq c j N :
  wrap_int32 c = N -> 0 < j < 2 ^ 32 -> wrap_int32 (c + j) <> N.
Proof.
  unfold wrap_int32. intros HN Hj Heq.
  change (2 ^ 32) with 4294967296 in *. change (2 ^ 31) with 2147483648 in *.
  Z.div_mod_to_equations. lia.
Qed.

(** From a fresh counter, the first [2^32 + N - 1] successful calls send
    exactly once, at call [N], when [N] is positive, and never otherwise. *)
Lemma signals_fresh N k :
  is_int32 N -> Z.of_nat k < 2 ^ 32 + N ->
  signals N 0 k = if decide (1 <= N <= Z.of_nat k) then 1%nat else 0%nat.
Proof.
  intros HN Hk. unfold is_int32 in HN.
  change (2 ^ 32) with 4294967296 in *. change (2 ^ 31) with 2147483648 in *.
  destruct (decide (1 <= N <= Z.of_nat k)) as [Hin|Hout].
  - replace k with (Z.to_nat (N - 1) + (1 + Z.to_nat (Z.of_nat k - N)))%nat
      by lia.
    rewrite !signals_app.
    rewrite (signals_none N 0 (Z.to_nat (N - 1))).
    + rewrite (signals_one N (0 + Z.of_nat (Z.to_nat (N - 1)))).
      * rewrite signals_none; [reflexivity|].
        intros j Hj.
        apply wrap_int32_neq.
        -- rewrite wrap_int32_id; [lia|]. unfold is_int32.
           change (2 ^ 31) with 2147483648. lia.
        -- change (2 ^ 32) with 4294967296. lia.
      * rewrite wrap_int32_id; [lia|]. unfold is_int32.
        change (2 ^ 31) with 2147483648. lia.
    + intros j Hj. rewrite wrap_int32_id; [lia|]. unfold is_int32.
      change (2 ^ 31) with 2147483648. lia.
  - apply signals_none. intros j Hj Heq.
    unfold wrap_int32 in Heq.
    change (2 ^ 32) with 4294967296 in *. change (2 ^ 31) with 2147483648 in *.
    Z.div_mod_to_equations. lia.
Qed.

Lemma wrap_int32_add_l a b : wrap_int32 (wrap_int32 a + b) = wrap_int32 (a + b).
Proof.
  unfold wrap_int32.
  replace ((a + 2 ^ 31) mod 2 ^ 32 - 2 ^ 31 + b + 2 ^ 31)
    with ((a + 2 ^ 31) mod 2 ^ 32 + b) by lia.
  replace (a + b + 2 ^ 31) with ((a + 2 ^ 31) + b) by lia.
  rewrite Zplus_mod_idemp_l. reflexivity.
Qed.

#[global] Instance outcome_eq_dec : EqDecision outcome.
Proof. solve_decision. Defined.

(** The number of calls among [os] that returned [nil]. *)
Definition successes (os : list outcome) : nat :=
  length (filter (fun o => o = Returned None) os).

Section WithKernel.

(** The sentry kernel and the packages around it ([kernel], [auth],
    [limits], [fd], [user]) are outside the sources at hand: their types and
    the functions [lifecycle.go] calls stay abstract. Functions that change
    the kernel return the kernel afterwards. *)
Context {Kernel Credentials UserNamespace Namespace FDTable LimitSet
         TaskCapabilities File FD ThreadGroup : Type}.

Variable Kernel_NewFDTable : Kernel -> FDTable.
Variable Kernel_RootUserNamespace : Kernel -> UserNamespace.
Variable Kernel_RootUTSNamespace : Kernel -> Namespace.
Variable Kernel_RootIPCNamespace : Kernel -> Namespace.
Variable Kernel_RootAbstractSocketNamespace : Kernel -> Namespace.
Variable Kernel_RootPIDNamespace : Kernel -> Namespace.
Variable Kernel_Pause : Kernel -> Kernel.
Variable Kernel_Unpause : Kernel -> Kernel.
Variable Kernel_StartProcess : Kernel -> ThreadGroup -> Kernel.
Variable NewUserCredentials :
  Z -> Z -> list Z -> option TaskCapabilities -> UserNamespace -> Credentials.
Variable NewRootCredentials : UserNamespace -> Credentials.
Variable Credentials_UserNamespace : Credentials -> UserNamespace.
Variable NewLimitSet : LimitSet.
Variable MaxSymlinkTraversals : Z.
Variable VFS2Enabled : bool.
Variable NewFromFiles : list File -> list FD + error.
Variable VFS_NewMountNamespace :
  Kernel -> Credentials -> string -> string -> MountOptions ->
  MountNamespace + error.

(** [MountNamespaceVFS2] and the entries of [MountNamespacesMap] are
    pointers in the source. The embedding keeps the namespaces themselves: it
    does not tell an entry that holds nil from a missing one, nor two entries
    that point to one namespace; no result below rests on either. *)
Record Lifecycle : Type := {
  Kernel_of : Kernel;
  (** [StartedCh chan struct{}]: the number of values sent on it so far *)
  StartedCh : nat;
  MountNamespaceVFS2 : option MountNamespace;
  NumContainers : Z;
  containersStarted : Z;
  MountNamespacesMap : gmap string MountNamespace
}.

Record StartContainerArgs : Type := {
  Filename : string;
  Argv : list string;
  Envv : list string;
  WorkingDirectory : string;
  KUID : Z;
  KGID : Z;
  ExtraKGIDs : list Z;
  Capabilities : option TaskCapabilities;
  Files : list File;
  ContainerID : string;
  Limits : option LimitSet;
  MountRootConf : SentryMount;
  SubMountConf : list SentryMount;
  MountFd : Z;
  ContainerName : string
}.

(** [kernel.CreateProcessArgs], the fields [StartContainer] fills in. *)
Record CreateProcessArgs : Type := {
  cpa_Filename : string;
  cpa_Argv : list string;
  cpa_Envv : list string;
  cpa_WorkingDirectory : string;
  cpa_Credentials : Credentials;
  cpa_FDTable : FDTable;
  cpa_Umask : Z;
  cpa_Limits : LimitSet;
  cpa_MaxSymlinkTraversals : Z;
  cpa_UTSNamespace : Namespace;
  cpa_IPCNamespace : Namespace;
  cpa_AbstractSocketNamespace : Namespace;
  cpa_ContainerID : string;
  cpa_PIDNamespace : Namespace;
  cpa_MountNamespaceVFS2 : option MountNamespace
}.

Variable ResolveExecutablePath : Kernel -> CreateProcessArgs -> string + error.
Variable Kernel_CreateProcess :
  Kernel -> CreateProcessArgs -> (ThreadGroup * Kernel) + error.

Definition set_Filename (a : CreateProcessArgs) (f : string) : CreateProcessArgs :=
  {| cpa_Filename := f; cpa_Argv := cpa_Argv a; cpa_Envv := cpa_Envv a;
     cpa_WorkingDirectory := cpa_WorkingDirectory a;
     cpa_Credentials := cpa_Credentials a; cpa_FDTable := cpa_FDTable a;
     cpa_Umask := cpa_Umask a; cpa_Limits := cpa_Limits a;
     cpa_MaxSymlinkTraversals := cpa_MaxSymlinkTraversals a;
     cpa_UTSNamespace := cpa_UTSNamespace a;
     cpa_IPCNamespace := cpa_IPCNamespace a;
     cpa_AbstractSocketNamespace := cpa_AbstractSocketNamespace a;
     cpa_ContainerID := cpa_ContainerID a;
     cpa_PIDNamespace := cpa_PIDNamespace a;
     cpa_MountNamespaceVFS2 := cpa_MountNamespaceVFS2 a |}.

Definition set_MountNamespaceVFS2 (a : CreateProcessArgs)
  (mns : option MountNamespace) : CreateProcessArgs :=
  {| cpa_Filename := cpa_Filename a; cpa_Argv := cpa_Argv a;
     cpa_Envv := cpa_Envv a;
     cpa_WorkingDirectory := cpa_WorkingDirectory a;
     cpa_Credentials := cpa_Credentials a; cpa_FDTable := cpa_FDTable a;
     cpa_Umask := cpa_Umask a; cpa_Limits := cpa_Limits a;
     cpa_MaxSymlinkTraversals := cpa_MaxSymlinkTraversals a;
     cpa_UTSNamespace := cpa_UTSNamespace a;
     cpa_IPCNamespace := cpa_IPCNamespace a;
     cpa_AbstractSocketNamespace := cpa_AbstractSocketNamespace a;
     cpa_ContainerID := cpa_ContainerID a;
     cpa_PIDNamespace := cpa_PIDNamespace a;
     cpa_MountNamespaceVFS2 := mns |}.

(** [String] prints the [StartContainerArgs.argv] as a string. *)
Definition String (args : StartContainerArgs) : string :=
  if decide (length (Argv args) = 0%nat) then Filename args
  else
    let a := Argv args in
    let a := if decide (Filename args = "") then a
             else <[0%nat := Filename args]> a in
    Go.Join a " ".

(** The mount data [createNewMountNamespace] builds for a mount fd. *)
Definition mount_data (fd : Z) : string :=
  Go.Join [ "trans=fd"; "rfdno=" +:+ Go.Itoa fd; "wfdno=" +:+ Go.Itoa fd ] ",".

(** The mount options [createNewMountNamespace] hands to the VFS. *)
Definition mount_opts (fd : Z) : MountOptions :=
  {| ReadOnly := true;
     GetFilesystemOpts := {| Data := mount_data fd;
                             InternalData_UniqueID := "/" |};
     InternalMount := true |}.

(** [createNewMountNamespace]: one call of [NewMountNamespace]; the
    [submounts] argument is not used (the source carries
    [// TODO: Mount submounts.] in its place). *)
Definition createNewMountNamespace (l : Lifecycle) (creds : Credentials)
  (fsType : string) (fd : Z) (submounts : list SentryMount)
  : MountNamespace + error :=
  let opts := mount_opts fd in
  let rootCreds := NewRootCredentials (Credentials_UserNamespace creds) in
  match VFS_NewMountNamespace (Kernel_of l) rootCreds "" fsType opts with
  | inr err =>
      inr (Errorf ("failed to construct MountNamespace: " +:+ Go.Error err))
  | inl mns => inl mns
  end.

Definition set_Kernel (l : Lifecycle) (k : Kernel) : Lifecycle :=
  {| Kernel_of := k; StartedCh := StartedCh l;
     MountNamespaceVFS2 := MountNamespaceVFS2 l;
     NumContainers := NumContainers l;
     containersStarted := containersStarted l;
     MountNamespacesMap := MountNamespacesMap l |}.

Definition set_MountNamespacesMap (l : Lifecycle)
  (m : gmap string MountNamespace) : Lifecycle :=
  {| Kernel_of := Kernel_of l; StartedCh := StartedCh l;
     MountNamespaceVFS2 := MountNamespaceVFS2 l;
     NumContainers := NumContainers l;
     containersStarted := containersStarted l;
     MountNamespacesMap := m |}.

(** The tail of [StartContainer], after [StartProcess]:
    [l.containersStarted++] on an [int32], then the send on [StartedCh] when
    the counter equals [NumContainers]. *)
Definition count_started (l : Lifecycle) : Lifecycle :=
  let started := wrap_int32 (containersStarted l + 1) in
  {| Kernel_of := Kernel_of l;
     StartedCh := if decide (NumContainers l = started)
                  then S (StartedCh l) else StartedCh l;
     MountNamespaceVFS2 := MountNamespaceVFS2 l;
     NumContainers := NumContainers l;
     containersStarted := started;
     MountNamespacesMap := MountNamespacesMap l |}.

(** [StartContainer] will start a new container in the sandbox. With
    [VFS2Enabled] the mount namespace is looked up by container id and its
    reference count incremented in place; an id that is not in the map gives
    a nil namespace, whose [IncRef] panics. Logging, the context and the
    deferred [fdTable.DecRef] and [fd.Close] calls touch nothing of the
    Lifecycle and are left out. *)
Definition StartContainer (l : Lifecycle) (args : StartContainerArgs)
  : outcome * Lifecycle :=
  let k := Kernel_of l in
  let fdTable := Kernel_NewFDTable k in
  let creds := NewUserCredentials (KUID args) (KGID args) (ExtraKGIDs args)
                 (Capabilities args) (Kernel_RootUserNamespace k) in
  let limitSet := match Limits args with
                  | Some ls => ls
                  | None => NewLimitSet
                  end in
  let initArgs :=
    {| cpa_Filename := Filename args;
       cpa_Argv := Argv args;
       cpa_Envv := Envv args;
       cpa_WorkingDirectory := WorkingDirectory args;
       cpa_Credentials := creds;
       cpa_FDTable := fdTable;
       cpa_Umask := 18;
       cpa_Limits := limitSet;
       cpa_MaxSymlinkTraversals := MaxSymlinkTraversals;
       cpa_UTSNamespace := Kernel_RootUTSNamespace k;
       cpa_IPCNamespace := Kernel_RootIPCNamespace k;
       cpa_AbstractSocketNamespace := Kernel_RootAbstractSocketNamespace k;
       cpa_ContainerID := ContainerID args;
       cpa_PIDNamespace := Kernel_RootPIDNamespace k;
       cpa_MountNamespaceVFS2 := MountNamespaceVFS2 l |} in
  let lookup :=
    if VFS2Enabled then
      match MountNamespacesMap l !! cpa_ContainerID initArgs with
      | None => None
      | Some mns =>
          let mns' := MountNamespace_IncRef mns in
          Some (set_MountNamespaceVFS2 initArgs (Some mns'),
                set_MountNamespacesMap l
                  (<[cpa_ContainerID initArgs := mns']> (MountNamespacesMap l)))
      end
    else Some (initArgs, l) in
  match lookup with
  | None => (Panicked, l)
  | Some (initArgs, l) =>
      match ResolveExecutablePath k initArgs with
      | inr err => (Returned (Some err), l)
      | inl resolved =>
          let initArgs := set_Filename initArgs resolved in
          match NewFromFiles (Files args) with
          | inr err =>
              (Returned (Some (Errorf ("duplicating payload files: "
                                         +:+ Go.Error err))), l)
          | inl fds =>
              match Kernel_CreateProcess k initArgs with
              | inr err => (Returned (Some err), l)
              | inl (tg, k') =>
                  let k'' := Kernel_StartProcess k' tg in
                  (Returned None, count_started (set_Kernel l k''))
              end
          end
      end
  end.

(** [Pause] pauses all tasks, blocking until they are stopped. *)
Definition Pause (l : Lifecycle) : option error * Lifecycle :=
  (None, set_Kernel l (Kernel_Pause (Kernel_of l))).

(** [Resume] resumes all tasks. *)
Definition Resume (l : Lifecycle) : option error * Lifecycle :=
  (None, set_Kernel l (Kernel_Unpause (Kernel_of l))).

(** A sequence of [StartContainer] calls, one per element of [argss]; the
    outcomes come back in call order. *)
Fixpoint StartContainers (l : Lifecycle) (argss : list StartContainerArgs)
  : list outcome * Lifecycle :=
  match argss with
  | [] => ([], l)
  | args :: rest =>
      let '(o, l1) := StartContainer l args in
      let '(os, l2) := StartContainers l1 rest in
      (o :: os, l2)
  end.

(** Every call of the sequence returned [nil]. *)
Definition all_successful (os : list outcome) : Prop :=
  Forall (fun o => o = Returned None) os.

(** *** Helper facts *)

(** What a successful [StartContainer] does to the counter and the
    channel. *)
Lemma StartContainer_returned_nil l args l' :
  StartContainer l args = (Returned None, l') ->
  NumContainers l' = NumContainers l /\
  containersStarted l' = wrap_int32 (containersStarted l + 1) /\
  StartedCh l' =
    (if decide (NumContainers l = wrap_int32 (containersStarted l + 1))
     then S (StartedCh l) else StartedCh l).
Proof.
  unfold StartContainer. intros H.
  repeat case_match; simplify_eq; simpl; repeat split; try done;
    by case_decide.
Qed.

(** A call that fails or panics leaves counter and channel alone. *)
Lemma StartContainer_not_nil l args o l' :
  StartContainer l args = (o, l') -> o <> Returned None ->
  NumContainers l' = NumContainers l /\
  containersStarted l' = containersStarted l /\
  StartedCh l' = StartedCh l.
Proof.
  unfold StartContainer. intros H Ho.
  repeat case_match; simplify_eq; simpl; auto.
Qed.

Lemma StartContainers_successful l argss os l' :
  StartContainers l argss = (os, l') -> all_successful os ->
  NumContainers l' = NumContainers l /\
  StartedCh l' =
    (StartedCh l +
     signals (NumContainers l) (containersStarted l) (length argss))%nat.
Proof.
  revert l os l'. induction argss as [|args rest IH]; intros l os l' Hrun Hok.
  - simpl in Hrun. simplify_eq. simpl. split; [reflexivity | lia].
  - simpl in Hrun.
    destruct (StartContainer l args) as [o l1] eqn:Hcall.
    destruct (StartContainers l1 rest) as [os1 l2] eqn:Hrest.
    simplify_eq. inversion Hok as [|? ? Ho Hok1]; subst.
    apply StartContainer_returned_nil in Hcall as (HN & Hc & Hch).
    destruct (IH _ _ _ Hrest Hok1) as (HN2 & Hch2).
    rewrite HN2, Hch2, HN, Hc, Hch. split; [reflexivity|].
    simpl. destruct (decide _); lia.
Qed.

(** When no call can fail, every call of a sequence succeeds. *)
Lemma StartContainers_all_successful l argss :
  (forall l0 args, fst (StartContainer l0 args) = Returned None) ->
  all_successful (fst (StartContainers l argss)).
Proof.
  intros Hok. revert l. induction argss as [|args rest IH]; intros l.
  - constructor.
  - simpl. specialize (Hok l args).
    destruct (StartContainer l args) as [o l1].
    specialize (IH l1).
    destruct (StartContainers l1 rest) as [os l2].
    simpl in *. constructor; assumption.
Qed.

(** The start arguments with other mount settings. *)
Definition with_mount_conf (args : StartContainerArgs) (root : SentryMount)
  (subs : list SentryMount) (fd : Z) : StartContainerArgs :=
  {| Filename := Filename args; Argv := Argv args; Envv := Envv args;
     WorkingDirectory := WorkingDirectory args;
     KUID := KUID args; KGID := KGID args; ExtraKGIDs := ExtraKGIDs args;
     Capabilities := Capabilities args; Files := Files args;
     ContainerID := ContainerID args; Limits := Limits args;
     MountRootConf := root; SubMountConf := subs; MountFd := fd;
     ContainerName := ContainerName args |}.

(** [StartContainer] reads none of [MountRootConf], [SubMountConf] and
    [MountFd]: the namespace of the new process comes from the Lifecycle. *)
Lemma StartContainer_ignores_mount_conf l args root subs fd :
  StartContainer l (with_mount_conf args root subs fd) = StartContainer l args.
Proof. reflexivity. Qed.

(** The root mount [createNewMountNamespace] asks for is read-only, internal,
    and carries the mount data of the fd. *)
Lemma createNewMountNamespace_calls_VFS l creds fsType fd submounts :
  createNewMountNamespace l creds fsType fd submounts =
    match VFS_NewMountNamespace (Kernel_of l)
            (NewRootCredentials (Credentials_UserNamespace creds)) ""
            fsType (mount_opts fd) with
    | inr err =>
        inr (Errorf ("failed to construct MountNamespace: " +:+ Go.Error err))
    | inl mns => inl mns
    end.
Proof. reflexivity. Qed.

Lemma mount_opts_ReadOnly fd : ReadOnly (mount_opts fd) = true.
Proof. reflexivity. Qed.

Lemma mount_opts_Data fd :
  Data (GetFilesystemOpts (mount_opts fd)) =
    "trans=fd,rfdno=" +:+ Go.Itoa fd +:+ ",wfdno=" +:+ Go.Itoa fd.
Proof. reflexivity. Qed.

(** The namespace that comes back is the one the VFS built for the root
    mount, whatever the submounts asked for. *)
Lemma createNewMountNamespace_ignores_submounts l creds fsType fd subs subs' :
  createNewMountNamespace l creds fsType fd subs =
  createNewMountNamespace l creds fsType fd subs'.
Proof. reflexivity. Qed.

(** *** StartedCh *)

(** The claim of the spec about [StartedCh], for a fresh Lifecycle [l] and
    the calls [argss]: when all of them succeed, the channel has received one
    value if the [NumContainers]-th call is among them, and none otherwise. *)
Definition signalled_once_at_Nth (l : Lifecycle)
  (argss : list StartContainerArgs) : Prop :=
  forall os l',
    StartContainers l argss = (os, l') -> all_successful os ->
    StartedCh l' =
      (StartedCh l +
       if decide (1 <= NumContainers l <= Z.of_nat (length argss))%Z
       then 1 else 0)%nat.

(** C5, as amended. For a Lifecycle whose counter stands at zero and any
    sequence of fewer than [2^32 + NumContainers] successful [StartContainer]
    calls, [StartedCh] has received exactly one value once the
    [NumContainers]-th container has been started and none before; a
    [NumContainers] below one is never reached. (The [int32] counter wraps:
    call [2^32 + NumContainers] sends again.) *)
Theorem StartedCh_signalled_once_before_wrap l argss :
  containersStarted l = 0 -> is_int32 (NumContainers l) ->
  Z.of_nat (length argss) < 2 ^ 32 + NumContainers l ->
  signalled_once_at_Nth l argss.
Proof.
  intros Hfresh HN Hlen os l' Hrun Hok.
  destruct (StartContainers_successful l argss os l' Hrun Hok) as [_ ->].
  rewrite Hfresh, (signals_fresh _ _ HN Hlen). reflexivity.
Qed.

(** *** StartContainer: failures, references, the process created *)

(** X7. A call that does not return [nil] starts nothing and is not counted: the
    kernel, the counter, [NumContainers] and the channel are as before. *)
Theorem StartContainer_failure_is_not_counted l args o l' :
  StartContainer l args = (o, l') -> o <> Returned None ->
  Kernel_of l' = Kernel_of l /\
  NumContainers l' = NumContainers l /\
  containersStarted l' = containersStarted l /\
  StartedCh l' = StartedCh l.
Proof.
  unfold StartContainer. intros H Ho.
  repeat case_match; simplify_eq; simpl; auto.
Qed.

(** With VFS2 disabled, [StartContainer] does not read or change
    [MountNamespacesMap]. *)
Theorem StartContainer_without_VFS2_keeps_map l args :
  VFS2Enabled = false ->
  MountNamespacesMap (snd (StartContainer l args)) = MountNamespacesMap l.
Proof.
  unfold StartContainer. simpl. intros ->.
  repeat case_match; simplify_eq; reflexivity.
Qed.

(** X10. An error that [StartContainer] returns is the error of
    [ResolveExecutablePath] or of [CreateProcess], as it came, or the error
    of [NewFromFiles] behind the prefix "duplicating payload files: ". *)
Theorem StartContainer_error_sources l args e l' :
  StartContainer l args = (Returned (Some e), l') ->
  (exists a, ResolveExecutablePath (Kernel_of l) a = inr e) \/
  (exists err, NewFromFiles (Files args) = inr err /\
     e = Errorf ("duplicating payload files: " +:+ Go.Error err)) \/
  (exists a, Kernel_CreateProcess (Kernel_of l) a = inr e).
Proof.
  unfold StartContainer. intros H.
  repeat case_match; simplify_eq; eauto.
Qed.

(** X11. A call that returns [nil] has resolved the executable, created one
    process from the resolved path and started it on the kernel
    [CreateProcess] returned. Path resolution and process creation saw the
    caller's arguments, environment and container id, umask 0022, the
    caller's limits or else a new limit set, and as mount namespace the map
    entry (VFS2, with its new reference) or the root namespace of the
    Lifecycle. *)
Theorem StartContainer_success_creates_process l args l' :
  StartContainer l args = (Returned None, l') ->
  exists a0 resolved tg k',
    ResolveExecutablePath (Kernel_of l) a0 = inl resolved /\
    Kernel_CreateProcess (Kernel_of l) (set_Filename a0 resolved) =
      inl (tg, k') /\
    Kernel_of l' = Kernel_StartProcess k' tg /\
    cpa_Filename a0 = Filename args /\
    cpa_Argv a0 = Argv args /\ cpa_Envv a0 = Envv args /\
    cpa_ContainerID a0 = ContainerID args /\
    cpa_Umask a0 = 18 /\
    cpa_Limits a0 = default NewLimitSet (Limits args) /\
    cpa_MountNamespaceVFS2 a0 =
      (if VFS2Enabled
       then MountNamespace_IncRef <$> MountNamespacesMap l !! ContainerID args
       else MountNamespaceVFS2 l).
Proof.
  unfold StartContainer. intros H.
  repeat case_match; simplify_eq;
    eexists _, _, _, _; (split; [eassumption|]); (split; [eassumption|]);
    simpl in *; repeat split; try reflexivity;
    repeat match goal with
    | H : Limits _ = _ |- _ => rewrite H
    | H : _ !! _ = _ |- _ => rewrite H
    end; reflexivity.
Qed.

(** X12. Over any sequence of calls, failing ones included, the counter counts the
    calls that returned [nil], as an [int32]; [NumContainers] stays. *)
Theorem StartContainers_counts_successes l argss os l' :
  is_int32 (containersStarted l) ->
  StartContainers l argss = (os, l') ->
  length os = length argss /\
  NumContainers l' = NumContainers l /\
  containersStarted l' =
    wrap_int32 (containersStarted l + Z.of_nat (successes os)).
Proof.
  revert l os l'. induction argss as [|args rest IH]; intros l os l' Hc Hrun.
  - simpl in Hrun. simplify_eq. repeat split.
    unfold successes. simpl. rewrite Z.add_0_r, wrap_int32_id; done.
  - simpl in Hrun.
    destruct (StartContainer l args) as [o l1] eqn:Hcall.
    destruct (StartContainers l1 rest) as [os1 l2] eqn:Hrest.
    simplify_eq.
    destruct (decide (o = Returned None)) as [->|Ho].
    + apply StartContainer_returned_nil in Hcall as (HN & Hc1 & _).
      destruct (IH l1 os1 l' (eq_ind_r is_int32 (wrap_int32_range _) Hc1) Hrest)
        as (Hlen & HN2 & Hc2).
      split; [simpl; congruence|]. split; [congruence|].
      rewrite Hc2, Hc1, wrap_int32_add_l. f_equal.
      unfold successes. rewrite filter_cons_True by done. simpl length. lia.
    + apply StartContainer_not_nil in Hcall as (HN & Hc1 & _); [|exact Ho].
      destruct (IH l1 os1 l' (eq_ind_r is_int32 Hc Hc1) Hrest)
        as (Hlen & HN2 & Hc2).
      split; [simpl; congruence|]. split; [congruence|].
      rewrite Hc2, Hc1. f_equal.
      unfold successes. rewrite filter_cons_False by done. reflexivity.
Qed.

(** *** String *)

(** X14. [String] prints the arguments separated by single spaces, with
    [Filename], when it is not empty, in the place of [Argv[0]]; this holds
    for an empty [Argv] as well. *)
Theorem String_shows_Filename_for_first_argument args :
  String args =
    Go.Join (if decide (Filename args = "") then Argv args
             else Filename args :: tail (Argv args)) " ".
Proof.
  unfold String. destruct (Argv args) as [|a0 rest]; simpl.
  - destruct (decide (Filename args = "")) as [->|_]; reflexivity.
  - destruct (decide (Filename args = "")); reflexivity.
Qed.

(** X13. [StartContainer] reads the process fields of its arguments only: two
    sets of arguments that differ in [MountRootConf], [SubMountConf],
    [MountFd] or [ContainerName] alone have the same outcome and leave the
    same Lifecycle. *)
Theorem StartContainer_reads_only_process_fields l a b :
  Filename a = Filename b -> Argv a = Argv b -> Envv a = Envv b ->
  WorkingDirectory a = WorkingDirectory b ->
  KUID a = KUID b -> KGID a = KGID b -> ExtraKGIDs a = ExtraKGIDs b ->
  Capabilities a = Capabilities b -> Files a = Files b ->
  ContainerID a = ContainerID b -> Limits a = Limits b ->
  StartContainer l a = StartContainer l b.
Proof.
  intros H1 H2 H3 H4 H5 H6 H7 H8 H9 H10 H11. unfold StartContainer.
  rewrite H1, H2, H3, H4, H5, H6, H7, H8, H9, H10, H11. reflexivity.
Qed.

(** *** Mount namespace construction *)






(** *** Mount data *)

(** X15. The mount data names its fd: different mount fds give different mount
    data, so different options for the root mount. *)
Theorem mount_data_distinct fd1 fd2 :
  fd1 <> fd2 ->
  mount_data fd1 <> mount_data fd2 /\ mount_opts fd1 <> mount_opts fd2.
Proof.
  intros Hne.
  assert (mount_data fd1 <> mount_data fd2) as Hdata.
  { intros Heq. apply Hne, Go.Itoa_inj.
    unfold mount_data in Heq. cbn [Go.Join] in Heq.
    rewrite !Go.app_String, !Go.string_app_nil_l in Heq.
    inversion Heq as [Hrest]. clear Heq.
    apply Go.app_byte_inj in Hrest;
      [exact Hrest | apply Go.Itoa_decimal; reflexivity ..]. }
  split; [exact Hdata|].
  intros Heq. apply Hdata.
  change (Data (GetFilesystemOpts (mount_opts fd1)) =
          Data (GetFilesystemOpts (mount_opts fd2))).
  rewrite Heq. reflexivity.
Qed.

End WithKernel.

Arguments Lifecycle : clear implicits.
Arguments StartContainerArgs : clear implicits.
Arguments CreateProcessArgs : clear implicits.

(** *** A kernel on which every call succeeds *)

(** The kernel is a unit; paths resolve to themselves, payload files
    duplicate, processes are created and started. VFS2 is off, so the
    namespace lookup cannot panic. *)
Abbreviation ok_StartContainer :=
  (StartContainer (Kernel := unit) (Credentials := unit)
     (UserNamespace := unit) (Namespace := unit) (FDTable := unit)
     (LimitSet := unit) (TaskCapabilities := unit) (File := unit)
     (FD := unit) (ThreadGroup := unit)
     (fun _ => tt) (fun _ => tt) (fun _ => tt) (fun _ => tt) (fun _ => tt)
     (fun _ => tt) (fun k _ => k) (fun _ _ _ _ _ => tt) tt 40 false
     (fun _ => inl []) (fun _ a => inl (cpa_Filename a))
     (fun k _ => inl (tt, k))).

Abbreviation ok_StartContainers :=
  (StartContainers (Kernel := unit) (Credentials := unit)
     (UserNamespace := unit) (Namespace := unit) (FDTable := unit)
     (LimitSet := unit) (TaskCapabilities := unit) (File := unit)
     (FD := unit) (ThreadGroup := unit)
     (fun _ => tt) (fun _ => tt) (fun _ => tt) (fun _ => tt) (fun _ => tt)
     (fun _ => tt) (fun k _ => k) (fun _ _ _ _ _ => tt) tt 40 false
     (fun _ => inl []) (fun _ a => inl (cpa_Filename a))
     (fun k _ => inl (tt, k))).

Abbreviation ok_signalled_once_at_Nth :=
  (signalled_once_at_Nth (Kernel := unit) (Credentials := unit)
     (UserNamespace := unit) (Namespace := unit) (FDTable := unit)
     (LimitSet := unit) (TaskCapabilities := unit) (File := unit)
     (FD := unit) (ThreadGroup := unit)
     (fun _ => tt) (fun _ => tt) (fun _ => tt) (fun _ => tt) (fun _ => tt)
     (fun _ => tt) (fun k _ => k) (fun _ _ _ _ _ => tt) tt 40 false
     (fun _ => inl []) (fun _ a => inl (cpa_Filename a))
     (fun k _ => inl (tt, k))).

(** A fresh Lifecycle for [n] containers. *)
Definition fresh_Lifecycle (n : Z) : Lifecycle unit :=
  {| Kernel_of := tt; StartedCh := O; MountNamespaceVFS2 := None;
     NumContainers := n; containersStarted := 0; MountNamespacesMap := ∅ |}.

Definition sleep_args : StartContainerArgs unit unit unit :=
  {| Filename := "/bin/sleep"; Argv := ["sleep"; "1000"]; Envv := [];
     WorkingDirectory := "/"; KUID := 0; KGID := 0; ExtraKGIDs := [];
     Capabilities := None; Files := []; ContainerID := "c1"; Limits := None;
     MountRootConf := {| Target := "/"; FsType := "9p" |};
     SubMountConf := [ {| Target := "/tmp"; FsType := "tmpfs" |} ];
     MountFd := 3; ContainerName := "c1" |}.

Lemma ok_StartContainers_all_successful l argss :
  all_successful (fst (ok_StartContainers l argss)).
Proof.
  apply StartContainers_all_successful. intros l0 args. reflexivity.
Qed.

Example two_containers_signal_once :
  StartedCh (snd (ok_StartContainers (fresh_Lifecycle 2)
                    [sleep_args; sleep_args; sleep_args])) = 1%nat /\
  StartedCh (snd (ok_StartContainers (fresh_Lifecycle 2) [sleep_args])) = O.
Proof. split; reflexivity. Qed.

(** C5, as the spec states it, fails: with [NumContainers = 1], the first
    call sends, and after [2^32] more successful calls the [int32] counter is
    back at 1 and the last of them sends a second value. *)
Lemma StartedCh_signalled_twice_counterexample :
  ~ ok_signalled_once_at_Nth
      (fresh_Lifecycle 1) (replicate (Z.to_nat (2 ^ 32 + 1)) sleep_args).
Proof.
  intros Hclaim.
  pose proof (ok_StartContainers_all_successful (fresh_Lifecycle 1)
                (replicate (Z.to_nat (2 ^ 32 + 1)) sleep_args)) as Hok.
  destruct (ok_StartContainers (fresh_Lifecycle 1)
              (replicate (Z.to_nat (2 ^ 32 + 1)) sleep_args))
    as [os l'] eqn:Hrun.
  cbv [fst] in Hok.
  pose proof (Hclaim os l' Hrun Hok) as Hone.
  eapply StartContainers_successful in Hrun as [_ Htwo]; [|exact Hok].
  rewrite Htwo in Hone. clear Htwo Hok Hclaim.
  rewrite length_replicate in Hone.
  change (NumContainers (fresh_Lifecycle 1)) with 1 in Hone.
  change (containersStarted (fresh_Lifecycle 1)) with 0 in Hone.
  change (StartedCh (fresh_Lifecycle 1)) with O in Hone.
  change (2 ^ 32) with 4294967296 in Hone.
  assert (signals 1 0 (Z.to_nat (4294967296 + 1)) = 2%nat) as Hsig.
  { replace (Z.to_nat (4294967296 + 1))
      with (1 + (Z.to_nat 4294967295 + 1))%nat by lia.
    rewrite !signals_app.
    rewrite (signals_one 1 0) by reflexivity.
    rewrite (signals_none 1 (0 + Z.of_nat 1) (Z.to_nat 4294967295)).
    - rewrite signals_one; [reflexivity|].
      replace (0 + Z.of_nat 1 + Z.of_nat (Z.to_nat 4294967295) + 1)
        with 4294967297 by lia.
      reflexivity.
    - intros j Hj. apply wrap_int32_neq; [reflexivity|].
      change (2 ^ 32) with 4294967296. lia. }
  rewrite Hsig in Hone.
  destruct (decide (1 <= 1 <= Z.of_nat (Z.to_nat (4294967296 + 1))));
    discriminate Hone.
Qed.

Lemma StartedCh_signalled_once_before_wrap_witness :
  StartedCh (snd (ok_StartContainers (fresh_Lifecycle 2)
                    [sleep_args; sleep_args; sleep_args])) = 1%nat.
Proof.
  assert (containersStarted (fresh_Lifecycle 2) = 0) as Hfresh by reflexivity.
  assert (is_int32 (NumContainers (fresh_Lifecycle 2))) as HN
    by (unfold is_int32; simpl; lia).
  assert (Z.of_nat (length [sleep_args; sleep_args; sleep_args])
          < 2 ^ 32 + NumContainers (fresh_Lifecycle 2)) as Hlen
    by (simpl; lia).
  exact (StartedCh_signalled_once_before_wrap
           (Credentials := unit) (UserNamespace := unit) (Namespace := unit)
           (FDTable := unit) (FD := unit) (ThreadGroup := unit)
           (fun _ => tt) (fun _ => tt) (fun _ => tt) (fun _ => tt)
           (fun _ => tt) (fun _ => tt) (fun k _ => k)
           (fun _ _ _ _ _ => tt) tt 40 false
           (fun _ => inl []) (fun _ a => inl (cpa_Filename a))
           (fun k _ => inl (tt, k))
           (fresh_Lifecycle 2) [sleep_args; sleep_args; sleep_args]
           Hfresh HN Hlen _ _ eq_refl
           (ok_StartContainers_all_successful (fresh_Lifecycle 2)
              [sleep_args; sleep_args; sleep_args])).
Defined.

(** *** The submounts, for every VFS *)


(** *** Kernels on which a call fails, and VFS2 *)

(** The unit kernel with the VFS2 switch and the three fallible calls left
    open; [f] is [StartContainer] or a result about it. *)
Abbreviation on_unit_kernel f vfs2 files resolve create :=
  (f unit unit unit unit unit unit unit unit unit unit
     (fun _ : unit => tt) (fun _ : unit => tt) (fun _ : unit => tt)
     (fun _ : unit => tt) (fun _ : unit => tt) (fun _ : unit => tt)
     (fun (k : unit) (_ : unit) => k)
     (fun (_ _ : Z) (_ : list Z) (_ : option unit) (_ : unit) => tt)
     tt 40 vfs2 files resolve create).

(** Payload files duplicate; they do not. *)
Definition files_ok (files : list unit) : list unit + error := inl [].
Definition files_fail (files : list unit) : list unit + error := inr EFAULT.

(** A path resolves to itself, the empty path to no executable. *)
Definition resolve_named (k : unit) (a : CreateProcessArgs unit unit unit unit)
  : string + error :=
  if decide (cpa_Filename a = "") then inr EINVAL else inl (cpa_Filename a).

Definition create_ok (k : unit) (a : CreateProcessArgs unit unit unit unit)
  : (unit * unit) + error :=
  inl (tt, k).

(** Start arguments that name no executable. *)
Definition nameless_args : StartContainerArgs unit unit unit :=
  {| Filename := ""; Argv := []; Envv := [];
     WorkingDirectory := "/"; KUID := 0; KGID := 0; ExtraKGIDs := [];
     Capabilities := None; Files := []; ContainerID := "c2"; Limits := None;
     MountRootConf := {| Target := "/"; FsType := "9p" |};
     SubMountConf := []; MountFd := 4; ContainerName := "c2" |}.

(** A namespace of one root mount, and a Lifecycle that holds it for
    container [c1]. *)
Definition root_namespace : MountNamespace :=
  {| mns_root := {| mnt_source := ""; mnt_fstype := "9p";
                    mnt_opts := mount_opts 3; mnt_destination := "/" |};
     mns_mounts := [];
     mns_refs := 1 |}.

Definition Lifecycle_with_c1 : Lifecycle unit :=
  {| Kernel_of := tt; StartedCh := O; MountNamespaceVFS2 := None;
     NumContainers := 2; containersStarted := 0;
     MountNamespacesMap := {[ "c1" := root_namespace ]} |}.

Lemma StartContainer_failure_is_not_counted_witness :
  let l' := snd (on_unit_kernel (@StartContainer) false files_ok resolve_named
                   create_ok (fresh_Lifecycle 1) nameless_args) in
  Kernel_of l' = Kernel_of (fresh_Lifecycle 1) /\
  NumContainers l' = NumContainers (fresh_Lifecycle 1) /\
  containersStarted l' = containersStarted (fresh_Lifecycle 1) /\
  StartedCh l' = StartedCh (fresh_Lifecycle 1).
Proof.
  apply (on_unit_kernel (@StartContainer_failure_is_not_counted) false
           files_ok resolve_named create_ok
           (fresh_Lifecycle 1) nameless_args (Returned (Some EINVAL))).
  - reflexivity.
  - discriminate.
Defined.

Lemma StartContainer_without_VFS2_keeps_map_witness :
  MountNamespacesMap
    (snd (on_unit_kernel (@StartContainer) false files_ok resolve_named
            create_ok Lifecycle_with_c1 sleep_args)) =
  MountNamespacesMap Lifecycle_with_c1.
Proof.
  apply (on_unit_kernel (@StartContainer_without_VFS2_keeps_map) false
           files_ok resolve_named create_ok Lifecycle_with_c1 sleep_args).
  reflexivity.
Defined.

Lemma StartContainer_error_sources_witness :
  (exists a, resolve_named tt a =
     inr (Errorf "duplicating payload files: bad address")) \/
  (exists err, files_fail [] = inr err /\
     Errorf "duplicating payload files: bad address" =
     Errorf ("duplicating payload files: " +:+ Go.Error err)) \/
  (exists a, create_ok tt a =
     inr (Errorf "duplicating payload files: bad address")).
Proof.
  apply (on_unit_kernel (@StartContainer_error_sources) false
           files_fail resolve_named create_ok (fresh_Lifecycle 1) sleep_args
           (Errorf "duplicating payload files: bad address")
           (fresh_Lifecycle 1)).
  reflexivity.
Defined.

Lemma StartContainer_success_creates_process_witness :
  exists (a0 : CreateProcessArgs unit unit unit unit) resolved tg k',
    resolve_named tt a0 = inl resolved /\
    create_ok tt (set_Filename a0 resolved) = inl (tg, k') /\
    tt = k' /\
    cpa_Filename a0 = "/bin/sleep" /\
    cpa_Argv a0 = ["sleep"; "1000"] /\ cpa_Envv a0 = [] /\
    cpa_ContainerID a0 = "c1" /\
    cpa_Umask a0 = 18 /\
    cpa_Limits a0 = tt /\
    cpa_MountNamespaceVFS2 a0 = Some (MountNamespace_IncRef root_namespace).
Proof.
  apply (on_unit_kernel (@StartContainer_success_creates_process) true
           files_ok resolve_named create_ok Lifecycle_with_c1 sleep_args
           (snd (on_unit_kernel (@StartContainer) true files_ok resolve_named
                   create_ok Lifecycle_with_c1 sleep_args))).
  reflexivity.
Defined.

Lemma StartContainers_counts_successes_witness :
  let r := on_unit_kernel (@StartContainers) false files_ok resolve_named
             create_ok (fresh_Lifecycle 2)
             [sleep_args; nameless_args; sleep_args] in
  length (fst r) = 3%nat /\
  NumContainers (snd r) = 2 /\
  containersStarted (snd r) = wrap_int32 (0 + Z.of_nat (successes (fst r))).
Proof.
  apply (on_unit_kernel (@StartContainers_counts_successes) false
           files_ok resolve_named create_ok (fresh_Lifecycle 2)
           [sleep_args; nameless_args; sleep_args]).
  - unfold is_int32. simpl. lia.
  - reflexivity.
Defined.

Example one_failure_among_three_starts :
  on_unit_kernel (@StartContainers) false files_ok resolve_named create_ok
    (fresh_Lifecycle 2) [sleep_args; nameless_args; sleep_args] =
  ([Returned None; Returned (Some EINVAL); Returned None],
   {| Kernel_of := tt; StartedCh := 1%nat; MountNamespaceVFS2 := None;
      NumContainers := 2; containersStarted := 2; MountNamespacesMap := ∅ |}).
Proof. reflexivity. Qed.

Lemma StartContainer_reads_only_process_fields_witness :
  on_unit_kernel (@StartContainer) true files_ok resolve_named create_ok
    Lifecycle_with_c1 sleep_args =
  on_unit_kernel (@StartContainer) true files_ok resolve_named create_ok
    Lifecycle_with_c1
    (with_mount_conf sleep_args {| Target := "/"; FsType := "erofs" |} [] 7).
Proof.
  apply (on_unit_kernel (@StartContainer_reads_only_process_fields) true
           files_ok resolve_named create_ok Lifecycle_with_c1 sleep_args
           (with_mount_conf sleep_args {| Target := "/"; FsType := "erofs" |}
              [] 7));
    reflexivity.
Defined.

Lemma mount_data_distinct_witness :
  mount_data 3 <> mount_data 4 /\ mount_opts 3 <> mount_opts 4.
Proof. apply (mount_data_distinct 3 4). lia. Defined.

End Control.

(** ** runsc/container: status machine, checkpoint and restore *)

Module Container.

(** The OCI runtime spec ([specs.Spec]), the fields restore validation looks
    at. [Linux] is a pointer and may be nil. *)
Record LinuxCapabilities : Type := {
  Bounding : list string;
  Effective : list string;
  Inheritable : list string;
  Permitted : list string;
  Ambient : list string
}.

Record Process : Type := {
  Terminal : bool;
  Args : list string;
  Cwd : string;
  Capabilities : option LinuxCapabilities
}.

Record LinuxDevice : Type := {
  dev_Path : string;
  dev_Type : string;
  Major : Z;
  Minor : Z;
  FileMode : option Z
}.

Record LinuxNamespace : Type := { ns_Type : string; ns_Path : string }.

Record LinuxSeccomp : Type := {
  DefaultAction : string;
  Architectures : list string
}.

Record LinuxMemory : Type := {
  Limit : option Z;
  Swap : option Z;
  Reservation : option Z
}.

Record LinuxResources : Type := { Memory : option LinuxMemory }.

Record Linux : Type := {
  Devices : list LinuxDevice;
  Namespaces : list LinuxNamespace;
  Seccomp : option LinuxSeccomp;
  Resources : option LinuxResources
}.

Record Mount : Type := {
  Destination : string;
  Source : string;
  mnt_Type : string;
  Options : list string
}.

Record Spec : Type := {
  Process_of : Process;
  Mounts : list Mount;
  Annotations : gmap string string;
  Linux_of : option Linux
}.

#[global] Instance LinuxCapabilities_eq_dec : EqDecision LinuxCapabilities.
Proof. solve_decision. Defined.
#[global] Instance LinuxDevice_eq_dec : EqDecision LinuxDevice.
Proof. solve_decision. Defined.
#[global] Instance LinuxSeccomp_eq_dec : EqDecision LinuxSeccomp.
Proof. solve_decision. Defined.

(** A nil [Linux] section reads as the empty one. *)
Definition empty_Linux : Linux :=
  {| Devices := []; Namespaces := []; Seccomp := None; Resources := None |}.

Definition ifNil (l : option Linux) : Linux := default empty_Linux l.

(** *** Restore-time spec validation *)

(** The fields of a spec that restore validates. *)
Inductive Field : Type :=
  | FTerminal
  | FArgs
  | FCapabilities
  | FDevices
  | FNamespaces
  | FSeccomp
  | FAnnotations
  | FMounts.

#[global] Instance Field_eq_dec : EqDecision Field.
Proof. solve_decision. Defined.

(** The fields on which equality is required. *)
Definition equality_fields : list Field :=
  [FTerminal; FArgs; FCapabilities; FDevices; FNamespaces; FSeccomp;
   FAnnotations].

(** All validated fields, as the spec lists them: the equality fields, then
    the mounts. *)
Definition validated_fields : list Field := equality_fields ++ [FMounts].

(** The name an error carries for a field, as [container_test.go] expects it
    in the message. *)
Definition field_name (f : Field) : string :=
  match f with
  | FTerminal => "Terminal"
  | FArgs => "Args"
  | FCapabilities => "Capabilities"
  | FDevices => "Devices"
  | FNamespaces => "Namespace"
  | FSeccomp => "Seccomp"
  | FAnnotations => "Annotations"
  | FMounts => "Mounts"
  end.

(** The path of the file [base] in the directory [cwd]. *)
Fixpoint ends_in_slash (s : string) : bool :=
  match s with
  | EmptyString => false
  | String c EmptyString => bool_decide (c = "/"%char)
  | String _ rest => ends_in_slash rest
  end.

Definition path_in (cwd base : string) : string :=
  if ends_in_slash cwd then cwd +:+ base else cwd +:+ "/" +:+ base.

(** [b] is [./base] and [a] is the path of [base] in [cwd]: [cwd] contains
    the binary that both name. *)
Definition names_in_cwd (cwd a b : string) : bool :=
  match b with
  | String "."%char (String "/"%char base) =>
      negb (bool_decide (base = "")) &&
      negb (Go.IndexByte_found base "/"%char) &&
      bool_decide (a = path_in cwd base)
  | _ => false
  end.

(** [argv[0]] of one spec stands for that of the other when they are equal,
    or when one is [./basename] and the other the path of that file in
    [cwd], the directory that contains the binary. *)
Definition argv0_equiv (cwd a b : string) : bool :=
  bool_decide (a = b) || names_in_cwd cwd a b || names_in_cwd cwd b a.

Definition args_match (old new : Process) : bool :=
  match Args old, Args new with
  | [], [] => true
  | a :: rest, b :: rest' =>
      bool_decide (rest = rest') &&
      (bool_decide (a = b) ||
       (bool_decide (Cwd old = Cwd new) && argv0_equiv (Cwd old) a b))
  | _, _ => false
  end.

(** Annotation keys with one of these prefixes are left out of the
    comparison. *)
Definition ignored_annotation_prefixes : list string :=
  [ "dev.gvisor.internal."; "dev.gvisor.spec.mount.";
    "dev.gvisor.container-name-remap." ].

Definition annotation_validated (key : string) : bool :=
  forallb (fun p => negb (String.prefix p key)) ignored_annotation_prefixes.

Definition validated_annotations (m : gmap string string) : gmap string string :=
  filter (fun kv => annotation_validated kv.1 = true) m.

(** Mounts: duplicate entries with identical (destination, source, type)
    count once, wherever in the list they stand; what remains must match
    pairwise in destination and type. The source path may differ across
    checkpoint and restore. *)
Definition mount_id (m : Mount) : string * string * string :=
  (Destination m, Source m, mnt_Type m).

(** [l] without the elements that stood earlier in it or are in [seen]. *)
Fixpoint without_repeats (seen l : list (string * string * string))
  : list (string * string * string) :=
  match l with
  | [] => []
  | x :: rest =>
      if decide (x ∈ seen) then without_repeats seen rest
      else x :: without_repeats (x :: seen) rest
  end.

Definition mount_key (i : string * string * string) : string * string :=
  (i.1.1, i.2).

Definition mounts_match (old new : list Mount) : bool :=
  bool_decide (mount_key <$> without_repeats [] (mount_id <$> old) =
               mount_key <$> without_repeats [] (mount_id <$> new)).

(** Whether a validated field of the restoring spec [new] matches the
    checkpointed spec [old]. [Linux.Namespaces] are compared by [Type] only;
    [Linux.Resources] is not a validated field. *)
Definition field_matches (f : Field) (old new : Spec) : bool :=
  match f with
  | FTerminal =>
      bool_decide (Terminal (Process_of old) = Terminal (Process_of new))
  | FArgs => args_match (Process_of old) (Process_of new)
  | FCapabilities =>
      bool_decide (Capabilities (Process_of old) = Capabilities (Process_of new))
  | FDevices =>
      bool_decide (Devices (ifNil (Linux_of old)) = Devices (ifNil (Linux_of new)))
  | FNamespaces =>
      bool_decide (ns_Type <$> Namespaces (ifNil (Linux_of old)) =
                   ns_Type <$> Namespaces (ifNil (Linux_of new)))
  | FSeccomp =>
      bool_decide (Seccomp (ifNil (Linux_of old)) = Seccomp (ifNil (Linux_of new)))
  | FAnnotations =>
      bool_decide (validated_annotations (Annotations old) =
                   validated_annotations (Annotations new))
  | FMounts => mounts_match (Mounts old) (Mounts new)
  end.

(** The first field of [fs] that does not match, if any. *)
Fixpoint first_mismatch (fs : list Field) (old new : Spec) : option Field :=
  match fs with
  | [] => None
  | f :: rest =>
      if field_matches f old new then first_mismatch rest old new else Some f
  end.

(** Modelled from the spec: the validation of one container's spec on
    restore ([runsc/specutils] is not part of the sources at hand). "Equality
    is required on: Process.Terminal, Process.Args, Process.Capabilities,
    Linux.Devices, Linux.Namespaces (by Type only, not Path), Linux.Seccomp,
    top-level Annotations (excluding keys prefixed with ...). Mounts must
    match pairwise ...; Linux.Resources may differ. ... Mismatch fails with
    SpecMismatch(field)." An error carries one field; the spec does not say
    in which order a validator looks at the fields, nor which of several
    mismatches it reports. [order] is the order of the validator at hand:
    the fields are checked in that order and the first mismatch is
    reported. *)
Definition validateSpecForContainer (order : list Field) (old new : Spec)
  : option error :=
  match first_mismatch order old new with
  | Some f => Some (SpecMismatch (field_name f))
  | None => None
  end.

(** The [restore-spec-validation] policy of the configuration. *)
Inductive RestoreSpecValidationPolicy : Type := Enforce | Ignore.

Record Config : Type := { RestoreSpecValidation : RestoreSpecValidationPolicy }.

(** Modelled from the spec: [specutils.RestoreValidateSpec], for the spec of
    the restoring container against the checkpointed one. "A policy flag
    [ignore] bypasses validation." *)
Definition RestoreValidateSpec (order : list Field) (old new : Spec)
  (conf : Config) : option error :=
  match RestoreSpecValidation conf with
  | Ignore => None
  | Enforce => validateSpecForContainer order old new
  end.



(** The specs agree on everything restore validates, up to the paths of the
    namespaces; [Linux.Resources] is free. *)
Definition agree_up_to_namespace_paths_and_resources (old new : Spec) : Prop :=
  Process_of old = Process_of new /\
  Mounts old = Mounts new /\
  Annotations old = Annotations new /\
  Devices (ifNil (Linux_of old)) = Devices (ifNil (Linux_of new)) /\
  Seccomp (ifNil (Linux_of old)) = Seccomp (ifNil (Linux_of new)) /\
  ns_Type <$> Namespaces (ifNil (Linux_of old)) =
  ns_Type <$> Namespaces (ifNil (Linux_of new)).

(** *** Helper facts on validation *)

Lemma first_mismatch_None fs old new :
  first_mismatch fs old new = None <->
  Forall (fun f => field_matches f old new = true) fs.
Proof.
  induction fs as [|f fs IH]; simpl.
  - split; [constructor | reflexivity].
  - destruct (field_matches f old new) eqn:E.
    + rewrite IH. split; [intros H; constructor; assumption|].
      intros H. inversion H; assumption.
    + split; [discriminate|]. intros H. inversion H; congruence.
Qed.






Lemma args_match_refl p : args_match p p = true.
Proof.
  unfold args_match. destruct (Args p) as [|a rest]; [reflexivity|].
  rewrite !bool_decide_true by reflexivity. reflexivity.
Qed.

(** Specs that agree up to namespace paths and resources match on every
    validated field. *)
Lemma agree_field_matches old new f :
  agree_up_to_namespace_paths_and_resources old new ->
  field_matches f old new = true.
Proof.
  intros (HP & HM & HA & HD & HS & HN).
  destruct f; simpl.
  - rewrite HP. apply bool_decide_true. reflexivity.
  - rewrite HP. apply args_match_refl.
  - rewrite HP. apply bool_decide_true. reflexivity.
  - apply bool_decide_true. exact HD.
  - apply bool_decide_true. exact HN.
  - apply bool_decide_true. exact HS.
  - rewrite HA. apply bool_decide_true. reflexivity.
  - unfold mounts_match. rewrite HM. apply bool_decide_true. reflexivity.
Qed.

Lemma validateSpecForContainer_agree order old new :
  agree_up_to_namespace_paths_and_resources old new ->
  validateSpecForContainer order old new = None.
Proof.
  intros H. unfold validateSpecForContainer.
  replace (first_mismatch order old new) with (@None Field);
    [reflexivity|].
  symmetry. apply first_mismatch_None, Forall_forall.
  intros f _. apply agree_field_matches, H.
Qed.

Lemma agree_refl s : agree_up_to_namespace_paths_and_resources s s.
Proof. repeat split. Qed.


Lemma equality_fields_validated f : f ∈ equality_fields -> f ∈ validated_fields.
Proof. intros H. unfold validated_fields. apply elem_of_app. by left. Qed.

(** *** Containers *)

Inductive Status : Type := Creating | Created | Running | Paused | Stopped.

#[global] Instance Status_eq_dec : EqDecision Status.
Proof. solve_decision. Defined.

Section WithKernel.

Context {Kernel : Type}.
Variable Kernel_Pause : Kernel -> Kernel.
Variable Kernel_Unpause : Kernel -> Kernel.

(** The order in which the validator of the runtime looks at the fields:
    any arrangement of the validated fields. *)
Variable validation_order : list Field.
Hypothesis validation_order_complete : validation_order ≡ₚ validated_fields.

(** The sandbox of a container: the flags [container_test.go] reads and the
    control plane of the sentry that runs in it. *)
Record Sandbox : Type := {
  Restored : bool;
  Checkpointed : bool;
  sentry : Control.Lifecycle Kernel
}.

Record Container : Type := {
  ID : string;
  Spec_of : Spec;
  Status_of : Status;
  Sandbox_of : Sandbox
}.

(** A checkpoint: the spec of the checkpointed container and the state file,
    kept as the sentry kernel it serializes. *)
Record Image : Type := { image_Spec : Spec; image_Kernel : Kernel }.

Definition set_Status (c : Container) (st : Status) : Container :=
  {| ID := ID c; Spec_of := Spec_of c; Status_of := st;
     Sandbox_of := Sandbox_of c |}.

Definition set_sentry (c : Container) (l : Control.Lifecycle Kernel) : Container :=
  {| ID := ID c; Spec_of := Spec_of c; Status_of := Status_of c;
     Sandbox_of := {| Restored := Restored (Sandbox_of c);
                      Checkpointed := Checkpointed (Sandbox_of c);
                      sentry := l |} |}.

(** Modelled from the spec: [Container.Pause] ([runsc/container/container.go]
    is not part of the sources at hand). "Pause(): quiesces all tasks and
    timers; transitions Running -> Paused. Fails with NotRunning otherwise."
    The quiescing is the [Pause] call of the control plane. *)
Definition Pause (c : Container) : option error * Container :=
  match Status_of c with
  | Running =>
      match Control.Pause Kernel_Pause (sentry (Sandbox_of c)) with
      | (Some err, l) => (Some err, set_sentry c l)
      | (None, l) => (None, set_Status (set_sentry c l) Paused)
      end
  | _ => (Some NotRunning, c)
  end.

(** Modelled from the spec: [Container.Resume]. "Resume(): reverses Pause.
    Fails with NotPaused otherwise." *)
Definition Resume (c : Container) : option error * Container :=
  match Status_of c with
  | Paused =>
      match Control.Resume Kernel_Unpause (sentry (Sandbox_of c)) with
      | (Some err, l) => (Some err, set_sentry c l)
      | (None, l) => (None, set_Status (set_sentry c l) Running)
      end
  | _ => (Some NotPaused, c)
  end.

(** Modelled from the spec: [Container.Checkpoint]. "Quiesce. Pause all tasks
    and timers. If resume=true, arrange to unpause after the write completes;
    else leave paused. Serialize. ..." The image holds the quiesced kernel;
    the sandbox is marked checkpointed. *)
Definition Checkpoint (c : Container) (resume : bool)
  : option error * Container * option Image :=
  match Status_of c with
  | Running =>
      let l := sentry (Sandbox_of c) in
      let k := Kernel_Pause (Control.Kernel_of l) in
      let img := {| image_Spec := Spec_of c; image_Kernel := k |} in
      let k' := if resume then Kernel_Unpause k else k in
      (None,
       {| ID := ID c; Spec_of := Spec_of c;
          Status_of := if resume then Running else Paused;
          Sandbox_of := {| Restored := Restored (Sandbox_of c);
                           Checkpointed := true;
                           sentry := Control.set_Kernel l k' |} |},
       Some img)
  | _ => (Some NotRunning, c, None)
  end.

(** Modelled from the spec: [Container.Restore]. "Spec validation. Compare
    the restoring container's spec against the checkpointed spec. ...
    Reconstruct. ... Set Container.Restored = true, Checkpointed = false.
    Resume. Start the restored tasks." "Failure during restore is fatal to
    the new container and leaves the checkpoint on disk untouched." *)
Definition Restore (c : Container) (conf : Config) (img : Image)
  : option error * Container :=
  match RestoreValidateSpec validation_order (image_Spec img) (Spec_of c)
          conf with
  | Some err => (Some err, c)
  | None =>
      (None,
       {| ID := ID c; Spec_of := Spec_of c; Status_of := Running;
          Sandbox_of :=
            {| Restored := true;
               Checkpointed := false;
               sentry := Control.set_Kernel (sentry (Sandbox_of c))
                           (Kernel_Unpause (image_Kernel img)) |} |})
  end.

(** The guest: one scheduling step of the tasks in a kernel, which may append
    lines to a file on the host. A container runs its guest only while it is
    [Running]. *)
Variable guest_step : Kernel -> list Z -> Kernel * list Z.

Fixpoint guest_run (n : nat) (k : Kernel) (out : list Z) : Kernel * list Z :=
  match n with
  | O => (k, out)
  | S n' => let '(k', out') := guest_step k out in guest_run n' k' out'
  end.

Definition run (n : nat) (c : Container) (out : list Z) : Container * list Z :=
  match Status_of c with
  | Running =>
      let '(k, out') :=
        guest_run n (Control.Kernel_of (sentry (Sandbox_of c))) out in
      (set_sentry c (Control.set_Kernel (sentry (Sandbox_of c)) k), out')
  | _ => (c, out)
  end.

Lemma run_Running n c out :
  Status_of c = Running ->
  snd (run n c out) =
  snd (guest_run n (Control.Kernel_of (sentry (Sandbox_of c))) out).
Proof.
  intros H. unfold run. rewrite H.
  destruct (guest_run n _ out). reflexivity.
Qed.

(** The container [Restore] leaves behind when validation passes. *)
Definition restored (c : Container) (img : Image) : Container :=
  {| ID := ID c; Spec_of := Spec_of c; Status_of := Running;
     Sandbox_of :=
       {| Restored := true;
          Checkpointed := false;
          sentry := Control.set_Kernel (sentry (Sandbox_of c))
                      (Kernel_Unpause (image_Kernel img)) |} |}.

Lemma Restore_validated c conf img :
  RestoreValidateSpec validation_order (image_Spec img) (Spec_of c) conf
    = None ->
  Restore c conf img = (None, restored c img).
Proof. intros H. unfold Restore. rewrite H. reflexivity. Qed.



(** A [Restore] that succeeds leaves the container running, marked restored
    and not checkpointed, on the kernel of the image, resumed. *)
Lemma Restore_success c conf img c' :
  Restore c conf img = (None, c') ->
  c' = restored c img.
Proof.
  unfold Restore.
  destruct (RestoreValidateSpec validation_order (image_Spec img)
              (Spec_of c) conf);
    [discriminate|].
  intros [= <-]. reflexivity.
Qed.

(** *** Restore: spec validation *)



(** C3. [Linux.Namespaces] match exactly when their lists of [Type]s are
    equal, whatever the [Path]s. When the restoring spec agrees with the
    checkpointed one on every validated field, the namespaces by [Type], then
    [Restore] succeeds: so it does for specs that differ only in the paths of
    their namespaces, and for specs that differ only in [Linux.Resources]. *)
Theorem Restore_accepts_namespace_paths_and_resources c conf img :
  (field_matches FNamespaces (image_Spec img) (Spec_of c) = true <->
   ns_Type <$> Namespaces (ifNil (Linux_of (image_Spec img))) =
   ns_Type <$> Namespaces (ifNil (Linux_of (Spec_of c)))) /\
  (agree_up_to_namespace_paths_and_resources (image_Spec img) (Spec_of c) ->
   Restore c conf img = (None, restored c img)).
Proof.
  split.
  - simpl. apply bool_decide_eq_true.
  - intros Hagree. apply Restore_validated. unfold RestoreValidateSpec.
    destruct (RestoreSpecValidation conf); [|reflexivity].
    apply validateSpecForContainer_agree, Hagree.
Qed.

(** *** Pause and Resume *)

(** C6. [Pause] on a [Running] container succeeds and leaves it [Paused]; on
    a container in any other status, [Paused] among them, it fails and the
    container, its status included, is unchanged. [Resume] on a [Paused]
    container succeeds and leaves it [Running]; on a container in any other
    status, [Running] among them, it fails and the container is unchanged. *)
Theorem Pause_Resume_status c :
  (Status_of c = Running ->
   fst (Pause c) = None /\ Status_of (snd (Pause c)) = Paused) /\
  (Status_of c <> Running ->
   Pause c = (Some NotRunning, c) /\ Status_of (snd (Pause c)) = Status_of c) /\
  (Status_of c = Paused ->
   fst (Resume c) = None /\ Status_of (snd (Resume c)) = Running) /\
  (Status_of c <> Paused ->
   Resume c = (Some NotPaused, c) /\ Status_of (snd (Resume c)) = Status_of c).
Proof.
  unfold Pause, Resume.
  split; [|split; [|split]]; intros Hst.
  - rewrite Hst. simpl. split; reflexivity.
  - destruct (Status_of c) eqn:E; try contradiction;
      (split; [reflexivity | simpl; exact E]).
  - rewrite Hst. simpl. split; reflexivity.
  - destruct (Status_of c) eqn:E; try contradiction;
      (split; [reflexivity | simpl; exact E]).
Qed.

End WithKernel.

Arguments Sandbox : clear implicits.
Arguments Container : clear implicits.
Arguments Image : clear implicits.

(** *** The specs of [container_test.go] *)

(** [sleepSpecConf]: [testutil.NewSpecWithArgs("sleep", "1000")]. *)
Definition sleepSpec : Spec :=
  {| Process_of :=
       {| Terminal := false; Args := ["sleep"; "1000"]; Cwd := "/";
          Capabilities :=
            Some {| Bounding := ["CAP_CHOWN"]; Effective := ["CAP_CHOWN"];
                    Inheritable := ["CAP_CHOWN"]; Permitted := ["CAP_CHOWN"];
                    Ambient := [] |} |};
     Mounts :=
       [ {| Destination := "/etc"; Source := ""; mnt_Type := "tmpfs";
            Options := [] |};
         {| Destination := "/tmp"; Source := "/tmp"; mnt_Type := "bind";
            Options := [] |} ];
     Annotations := ∅;
     Linux_of := None |}.

Definition with_Process (s : Spec) (p : Process) : Spec :=
  {| Process_of := p; Mounts := Mounts s; Annotations := Annotations s;
     Linux_of := Linux_of s |}.

Definition with_Linux (s : Spec) (l : Linux) : Spec :=
  {| Process_of := Process_of s; Mounts := Mounts s;
     Annotations := Annotations s; Linux_of := Some l |}.

Definition with_Mounts (s : Spec) (ms : list Mount) : Spec :=
  {| Process_of := Process_of s; Mounts := ms; Annotations := Annotations s;
     Linux_of := Linux_of s |}.

Definition with_Annotations (s : Spec) (a : gmap string string) : Spec :=
  {| Process_of := Process_of s; Mounts := Mounts s; Annotations := a;
     Linux_of := Linux_of s |}.

Definition with_Terminal (s : Spec) (t : bool) : Spec :=
  with_Process s {| Terminal := t; Args := Args (Process_of s);
                    Cwd := Cwd (Process_of s);
                    Capabilities := Capabilities (Process_of s) |}.

Definition with_Args (s : Spec) (cwd : string) (args : list string) : Spec :=
  with_Process s {| Terminal := Terminal (Process_of s); Args := args;
                    Cwd := cwd;
                    Capabilities := Capabilities (Process_of s) |}.

Definition network_namespace (path : string) : Linux :=
  {| Devices := []; Namespaces := [ {| ns_Type := "network"; ns_Path := path |} ];
     Seccomp := None; Resources := None |}.

Definition memory_reservation (r : Z) : Linux :=
  {| Devices := []; Namespaces := []; Seccomp := None;
     Resources := Some {| Memory := Some {| Limit := Some 1; Swap := Some 2;
                                            Reservation := Some r |} |} |}.

Definition tmpfs_mount (source destination : string) : Mount :=
  {| Destination := destination; Source := source; mnt_Type := "tmpfs";
     Options := [] |}.

(** The cases of [TestSpecValidation] and [TestSpecValidationForArgs], for
    the validator that looks at the fields in the order the spec lists
    them. *)
Example validate_Terminal :
  validateSpecForContainer validated_fields sleepSpec (with_Terminal sleepSpec true)
  = Some (SpecMismatch "Terminal").
Proof. reflexivity. Qed.

Example validate_Args :
  validateSpecForContainer validated_fields sleepSpec
    (with_Args sleepSpec "/" ["sleep"; "1000"; "new arg"])
  = Some (SpecMismatch "Args").
Proof. reflexivity. Qed.

Example validate_ForArgs :
  validateSpecForContainer validated_fields
    (with_Args sleepSpec "/bin" ["/bin/sleep"; "1000"])
    (with_Args sleepSpec "/bin" ["./sleep"; "1000"])
  = None /\
  validateSpecForContainer validated_fields
    (with_Args sleepSpec "/bin" ["/bin/sleep"; "1000"; "1"])
    (with_Args sleepSpec "/bin" ["./sleep"; "1000"; "infinity"])
  = Some (SpecMismatch "Args").
Proof. split; reflexivity. Qed.

Example validate_Device :
  validateSpecForContainer validated_fields (with_Linux sleepSpec empty_Linux)
    (with_Linux sleepSpec
       {| Devices := [ {| dev_Path := "/dev/nvidiactl"; dev_Type := "c";
                          Major := 195; Minor := 255;
                          FileMode := Some 438 |} ];
          Namespaces := []; Seccomp := None; Resources := None |})
  = Some (SpecMismatch "Devices").
Proof. reflexivity. Qed.

Example validate_NamespaceFail :
  validateSpecForContainer validated_fields (with_Linux sleepSpec empty_Linux)
    (with_Linux sleepSpec (network_namespace "/proc/1/ns/net"))
  = Some (SpecMismatch "Namespace").
Proof. reflexivity. Qed.

Example validate_NamespaceSuccess :
  validateSpecForContainer validated_fields
    (with_Linux sleepSpec (network_namespace "/proc/1/ns/net1"))
    (with_Linux sleepSpec (network_namespace "/proc/1/ns/net2"))
  = None.
Proof. vm_compute. reflexivity. Qed.

Example validate_Seccomp :
  validateSpecForContainer validated_fields (with_Linux sleepSpec empty_Linux)
    (with_Linux sleepSpec
       {| Devices := []; Namespaces := [];
          Seccomp := Some {| DefaultAction := "SCMP_ACT_ALLOW";
                             Architectures := [] |};
          Resources := None |})
  = Some (SpecMismatch "Seccomp").
Proof. reflexivity. Qed.

Example validate_RestoreDupMountsSuccess :
  validateSpecForContainer validated_fields
    (with_Mounts sleepSpec (Mounts sleepSpec ++ [tmpfs_mount "/m/foo" "/m/foo"]))
    (with_Mounts sleepSpec
       (Mounts sleepSpec ++
        [tmpfs_mount "/r/restore" "/m/foo"; tmpfs_mount "/r/restore" "/m/foo"]))
  = None.
Proof. vm_compute. reflexivity. Qed.

Example validate_RestoreMountsFail :
  validateSpecForContainer validated_fields
    (with_Mounts sleepSpec (Mounts sleepSpec ++ [tmpfs_mount "/m/foo" "/m/foo"]))
    (with_Mounts sleepSpec
       (Mounts sleepSpec ++ [tmpfs_mount "/r/restore" "/r/restore"]))
  = Some (SpecMismatch "Mounts").
Proof. vm_compute. reflexivity. Qed.

Example validate_AnnotationsMountsSuccess :
  validateSpecForContainer validated_fields
    (with_Annotations sleepSpec
       {[ "dev.gvisor.spec.mount.mnt1.source" := "path1" ]})
    (with_Annotations sleepSpec
       {[ "dev.gvisor.spec.mount.mnt2.source" := "path2" ]})
  = None.
Proof. vm_compute. reflexivity. Qed.

Example validate_AnnotationsContainerNameRemapIgnored :
  validateSpecForContainer validated_fields
    (with_Annotations sleepSpec
       {[ "dev.gvisor.container-name-remap.1" := "name1" ]})
    (with_Annotations sleepSpec
       (<[ "dev.gvisor.container-name-remap.asdf" := "foobar" ]>
          {[ "dev.gvisor.container-name-remap.1" := "name2" ]}))
  = None.
Proof. vm_compute. reflexivity. Qed.

Example validate_AnnotationsFail :
  validateSpecForContainer validated_fields
    (with_Annotations sleepSpec {[ "dev.gvisor.net-disconnect-ok" := "true" ]})
    sleepSpec
  = Some (SpecMismatch "Annotations").
Proof. vm_compute. reflexivity. Qed.

Example validate_InternalAnnotationsSuccess :
  validateSpecForContainer validated_fields
    (with_Annotations sleepSpec {[ "dev.gvisor.internal.foo" := "foo" ]})
    (with_Annotations sleepSpec {[ "dev.gvisor.internal.foo" := "bar" ]})
  = None.
Proof. vm_compute. reflexivity. Qed.

Example validate_Capabilities :
  validateSpecForContainer validated_fields sleepSpec
    (with_Process sleepSpec
       {| Terminal := false; Args := ["sleep"; "1000"]; Cwd := "/";
          Capabilities :=
            Some {| Bounding := ["CAP_CHOWN"; "CAP_NET_RAW"];
                    Effective := ["CAP_CHOWN"];
                    Inheritable := ["CAP_CHOWN"]; Permitted := ["CAP_CHOWN"];
                    Ambient := [] |} |})
  = Some (SpecMismatch "Capabilities").
Proof. reflexivity. Qed.

Example validate_Resources :
  validateSpecForContainer validated_fields
    (with_Linux sleepSpec (memory_reservation 3))
    (with_Linux sleepSpec (memory_reservation 5))
  = None.
Proof. vm_compute. reflexivity. Qed.

Example validate_Ignore :
  RestoreValidateSpec validated_fields sleepSpec (with_Terminal sleepSpec true)
    {| RestoreSpecValidation := Ignore |} = None.
Proof. reflexivity. Qed.

(** A binary in the root directory, by its path and as [./sleep]; more
    arguments on one side do not match. *)
Example validate_Args_in_root :
  validateSpecForContainer validated_fields
    (with_Args sleepSpec "/" ["/sleep"; "1000"])
    (with_Args sleepSpec "/" ["./sleep"; "1000"])
  = None /\
  validateSpecForContainer validated_fields
    (with_Args sleepSpec "/bin/" ["./sleep"; "1000"])
    (with_Args sleepSpec "/bin/" ["/bin/sleep"; "1000"])
  = None /\
  validateSpecForContainer validated_fields
    (with_Args sleepSpec "/bin" ["/usr/bin/sleep"; "1000"])
    (with_Args sleepSpec "/bin" ["./sleep"; "1000"])
  = Some (SpecMismatch "Args").
Proof. repeat split. Qed.

(** A mount that is repeated further down the list counts once; the order
    of the mounts counts. *)
Example validate_RepeatedMount :
  validateSpecForContainer validated_fields sleepSpec
    (with_Mounts sleepSpec
       (Mounts sleepSpec ++
        [ {| Destination := "/etc"; Source := ""; mnt_Type := "tmpfs";
             Options := [] |} ]))
  = None /\
  validateSpecForContainer validated_fields sleepSpec
    (with_Mounts sleepSpec (reverse (Mounts sleepSpec)))
  = Some (SpecMismatch "Mounts").
Proof. split; vm_compute; reflexivity. Qed.

(** A restore spec with two mounts at one destination and different
    sources: the mounts do not match pairwise. ([container_test.go] expects
    the message "invalid mount" in this case, which the spec does not
    describe.) *)
Example validate_RestoreDupMountsFail :
  validateSpecForContainer validated_fields
    (with_Mounts sleepSpec (Mounts sleepSpec ++ [tmpfs_mount "/m/foo" "/m/foo"]))
    (with_Mounts sleepSpec
       (Mounts sleepSpec ++
        [tmpfs_mount "/r/restore" "/m/foo"; tmpfs_mount "/r/restore2" "/m/foo"]))
  = Some (SpecMismatch "Mounts").
Proof. vm_compute. reflexivity. Qed.

(** *** The counter workload of [testCheckpointRestore] *)

(** The guest runs
    [i=0; while true; do echo $i >> out; sleep 1; i=$((i+1)); done].
    The shell is a task with a program counter and the variable [i], read as
    a mathematical integer. *)
Inductive pc : Type := AtEcho | AtSleep | AtIncr.

Record Shell : Type := { sh_pc : pc; sh_i : Z }.

(** The sentry kernel of the workload: its one task, and whether the tasks
    are paused. *)
Record GuestKernel : Type := { task : Shell; paused : bool }.

Definition GuestKernel_Pause (k : GuestKernel) : GuestKernel :=
  {| task := task k; paused := true |}.

Definition GuestKernel_Unpause (k : GuestKernel) : GuestKernel :=
  {| task := task k; paused := false |}.

(** One step of the loop; [out] is the output file, one number per line. A
    paused kernel does not run its task. *)
Definition shell_step (k : GuestKernel) (out : list Z) : GuestKernel * list Z :=
  if paused k then (k, out)
  else
    match sh_pc (task k) with
    | AtEcho =>
        ({| task := {| sh_pc := AtSleep; sh_i := sh_i (task k) |};
            paused := false |},
         out ++ [sh_i (task k)])
    | AtSleep =>
        ({| task := {| sh_pc := AtIncr; sh_i := sh_i (task k) |};
            paused := false |}, out)
    | AtIncr =>
        ({| task := {| sh_pc := AtEcho; sh_i := sh_i (task k) + 1 |};
            paused := false |}, out)
    end.

Definition boot : GuestKernel :=
  {| task := {| sh_pc := AtEcho; sh_i := 0 |}; paused := false |}.

Definition guest_Lifecycle (k : GuestKernel) : Control.Lifecycle GuestKernel :=
  {| Control.Kernel_of := k; Control.StartedCh := O;
     Control.MountNamespaceVFS2 := None; Control.NumContainers := 1;
     Control.containersStarted := 0; Control.MountNamespacesMap := ∅ |}.

(** A container in the given status whose sandbox has just booted the
    workload. *)
Definition new_container (id : string) (spec : Spec) (st : Status)
  : Container GuestKernel :=
  {| ID := id; Spec_of := spec; Status_of := st;
     Sandbox_of := {| Restored := false; Checkpointed := false;
                      sentry := guest_Lifecycle boot |} |}.

Abbreviation shell_run := (guest_run shell_step).
Abbreviation run_shell := (run (Kernel := GuestKernel) shell_step).
Abbreviation Checkpoint_shell :=
  (Checkpoint GuestKernel_Pause GuestKernel_Unpause).
Abbreviation Restore_shell order := (Restore GuestKernel_Unpause order).
Abbreviation Pause_shell := (Pause GuestKernel_Pause).
Abbreviation Resume_shell := (Resume GuestKernel_Unpause).

(** The number the task writes next. *)
Definition next_written (sh : Shell) : Z :=
  match sh_pc sh with
  | AtEcho => sh_i sh
  | AtSleep | AtIncr => sh_i sh + 1
  end.

(** What the output file says about a running task: nothing written yet at
    the very start, otherwise the last line is the number before the next. *)
Definition consistent (k : GuestKernel) (out : list Z) : Prop :=
  paused k = false /\
  ((out = [] /\ task k = task boot) \/
   last out = Some (next_written (task k) - 1)).

Lemma shell_step_consistent k out :
  consistent k out ->
  consistent (fst (shell_step k out)) (snd (shell_step k out)).
Proof.
  intros [Hp Hout]. unfold shell_step. rewrite Hp.
  destruct k as [[p i] b]. simpl in *. subst b.
  destruct p; simpl; (split; [reflexivity|]); right.
  - rewrite last_snoc. unfold next_written. simpl. f_equal; lia.
  - destruct Hout as [[_ Hboot]|Hlast]; [discriminate|].
    unfold next_written in *. simpl in *. exact Hlast.
  - destruct Hout as [[_ Hboot]|Hlast]; [discriminate|].
    unfold next_written in *. simpl in *. rewrite Hlast; f_equal; lia.
Qed.

Lemma shell_run_consistent n k out :
  consistent k out ->
  consistent (fst (shell_run n k out)) (snd (shell_run n k out)).
Proof.
  revert k out. induction n as [|n IH]; intros k out H; [exact H|].
  simpl. pose proof (shell_step_consistent k out H) as Hstep.
  destruct (shell_step k out) as [k1 out1]. apply IH, Hstep.
Qed.

Lemma shell_step_head k out x :
  head out = Some x -> head (snd (shell_step k out)) = Some x.
Proof.
  intros H. unfold shell_step.
  destruct (paused k); [exact H|].
  destruct (sh_pc (task k)); simpl; try exact H.
  destruct out; [discriminate | exact H].
Qed.

Lemma shell_run_head n k out x :
  head out = Some x -> head (snd (shell_run n k out)) = Some x.
Proof.
  revert k out. induction n as [|n IH]; intros k out H; [exact H|].
  simpl. pose proof (shell_step_head k out x H) as Hstep.
  destruct (shell_step k out) as [k1 out1]. apply IH, Hstep.
Qed.

(** Whatever a running task writes first into an empty file is its next
    number. *)
Lemma shell_run_first_written n k :
  paused k = false ->
  snd (shell_run n k []) = [] \/
  head (snd (shell_run n k [])) = Some (next_written (task k)).
Proof.
  revert k. induction n as [|n IH]; intros k Hp; [left; reflexivity|].
  destruct k as [[p i] b]. simpl in Hp. subst b.
  destruct p.
  - right. simpl. apply shell_run_head. reflexivity.
  - simpl. unfold shell_step. simpl.
    apply (IH {| task := {| sh_pc := AtIncr; sh_i := i |}; paused := false |}).
    reflexivity.
  - simpl. unfold shell_step. simpl.
    apply (IH {| task := {| sh_pc := AtEcho; sh_i := i + 1 |}; paused := false |}).
    reflexivity.
Qed.

(** Within three steps a running task has written. *)
Lemma shell_run_writes k :
  paused k = false ->
  head (snd (shell_run 3 k [])) = Some (next_written (task k)).
Proof.
  intros Hp. destruct k as [[p i] b]. simpl in Hp. subst b.
  destruct p; reflexivity.
Qed.

(** C4. Every [Restore] that succeeds leaves the container [Running] with
    [Restored = true] and [Checkpointed = false] in its sandbox. For the
    counter workload: it runs in a container for any number of steps, and
    the last number in the output file is [N]; the container is checkpointed
    and the file emptied. [Restore] of the image into a new container with
    the same spec and another id succeeds, in whatever order the validator
    looks at the fields; the restored guest writes within three steps, and
    the first number it writes, however long it runs, is [N + 1]. *)
Theorem Restore_resumes_counter order spec conf id1 id2 n1 c1 out1 N c1' img :
  run_shell n1 (new_container id1 spec Running) [] = (c1, out1) ->
  last out1 = Some N ->
  Checkpoint_shell c1 false = (None, c1', Some img) ->
  (forall c conf' img' c',
     Restore_shell order c conf' img' = (None, c') ->
     Status_of c' = Running /\
     Restored (Sandbox_of c') = true /\
     Checkpointed (Sandbox_of c') = false) /\
  exists c2,
    Restore_shell order (new_container id2 spec Created) conf img
      = (None, c2) /\
    Status_of c2 = Running /\
    Restored (Sandbox_of c2) = true /\
    Checkpointed (Sandbox_of c2) = false /\
    head (snd (run_shell 3 c2 [])) = Some (N + 1) /\
    (forall n2, snd (run_shell n2 c2 []) = [] \/
                head (snd (run_shell n2 c2 [])) = Some (N + 1)).
Proof.
  intros Hrun Hlast Hckpt.
  split.
  { intros c conf' img' c' Hres.
    rewrite (Restore_success _ _ _ _ _ _ Hres). repeat split. }
  (* the first container: still running, kernel and file consistent *)
  unfold run in Hrun. simpl in Hrun.
  pose proof (shell_run_consistent n1 boot []) as Hcons.
  destruct (shell_run n1 boot []) as [k1 o1].
  injection Hrun as <- <-. 
  destruct Hcons as [Hp Hout].
  { split; [reflexivity | left; split; reflexivity]. }
  simpl in Hp, Hout.
  assert (next_written (task k1) = N + 1) as Hnext.
  { destruct Hout as [[-> _]|Hl]; [discriminate|].
    rewrite Hl in Hlast. injection Hlast as <-. lia. }
  (* the image holds the quiesced kernel *)
  unfold Checkpoint in Hckpt. simpl in Hckpt.
  injection Hckpt as <- <-.
  (* validation of a spec against itself passes *)
  eexists. split.
  { apply Restore_validated. simpl. unfold RestoreValidateSpec.
    destruct (RestoreSpecValidation conf); [|reflexivity].
    apply validateSpecForContainer_agree, agree_refl. }
  simpl. repeat split.
  - rewrite run_Running by reflexivity. rewrite <- Hnext.
    exact (shell_run_writes (GuestKernel_Unpause (GuestKernel_Pause k1))
             eq_refl).
  - intros n2. rewrite run_Running by reflexivity. rewrite <- Hnext.
    exact (shell_run_first_written n2
             (GuestKernel_Unpause (GuestKernel_Pause k1)) eq_refl).
Qed.

(** *** The theorems at the inputs of the tests *)

Definition enforce : Config := {| RestoreSpecValidation := Enforce |}.

Definition image_of (spec : Spec) : Image GuestKernel :=
  {| image_Spec := spec; image_Kernel := GuestKernel_Pause boot |}.

(** A validator that looks at the arguments before the terminal. *)
Definition args_first : list Field :=
  [FArgs; FTerminal; FCapabilities; FDevices; FNamespaces; FSeccomp;
   FAnnotations; FMounts].


(** The restoring spec of a terminal with one more argument. *)
Definition terminal_spec_with_new_arg : Spec :=
  with_Terminal (with_Args sleepSpec "/" ["sleep"; "1000"; "new arg"]) true.

Example Restore_names_one_of_two_mismatches :
  Restore_shell args_first
    (new_container "c2" terminal_spec_with_new_arg Created)
    enforce (image_of sleepSpec)
  = (Some (SpecMismatch "Args"),
     new_container "c2" terminal_spec_with_new_arg Created) /\
  Restore_shell validated_fields
    (new_container "c2" terminal_spec_with_new_arg Created)
    enforce (image_of sleepSpec)
  = (Some (SpecMismatch "Terminal"),
     new_container "c2" terminal_spec_with_new_arg Created).
Proof. split; reflexivity. Qed.



Lemma Restore_accepts_namespace_paths_and_resources_witness :
  Restore_shell validated_fields
    (new_container "c2"
       (with_Linux sleepSpec (network_namespace "/proc/1/ns/net2")) Created)
    enforce
    (image_of (with_Linux sleepSpec (network_namespace "/proc/1/ns/net1")))
  = (None,
     restored GuestKernel_Unpause
       (new_container "c2"
          (with_Linux sleepSpec (network_namespace "/proc/1/ns/net2")) Created)
       (image_of (with_Linux sleepSpec (network_namespace "/proc/1/ns/net1"))))
  /\
  Restore_shell validated_fields
    (new_container "c2" (with_Linux sleepSpec (memory_reservation 5)) Created)
    enforce (image_of (with_Linux sleepSpec (memory_reservation 3)))
  = (None,
     restored GuestKernel_Unpause
       (new_container "c2" (with_Linux sleepSpec (memory_reservation 5)) Created)
       (image_of (with_Linux sleepSpec (memory_reservation 3)))).
Proof.
  split.
  - apply (Restore_accepts_namespace_paths_and_resources GuestKernel_Unpause
             validated_fields).
    repeat split.
  - apply (Restore_accepts_namespace_paths_and_resources GuestKernel_Unpause
             validated_fields).
    repeat split.
Defined.

Lemma Pause_Resume_status_witness :
  (fst (Pause_shell (new_container "c" sleepSpec Running)) = None /\
   Status_of (snd (Pause_shell (new_container "c" sleepSpec Running))) = Paused)
  /\
  (Pause_shell (new_container "c" sleepSpec Paused)
   = (Some NotRunning, new_container "c" sleepSpec Paused) /\
   Status_of (snd (Pause_shell (new_container "c" sleepSpec Paused))) = Paused)
  /\
  (fst (Resume_shell (new_container "c" sleepSpec Paused)) = None /\
   Status_of (snd (Resume_shell (new_container "c" sleepSpec Paused))) = Running)
  /\
  (Resume_shell (new_container "c" sleepSpec Running)
   = (Some NotPaused, new_container "c" sleepSpec Running) /\
   Status_of (snd (Resume_shell (new_container "c" sleepSpec Running))) = Running).
Proof.
  destruct (Pause_Resume_status GuestKernel_Pause GuestKernel_Unpause
              (new_container "c" sleepSpec Running)) as (HP & _ & _ & HR).
  destruct (Pause_Resume_status GuestKernel_Pause GuestKernel_Unpause
              (new_container "c" sleepSpec Paused)) as (_ & HP' & HR' & _).
  split; [apply HP; reflexivity|].
  split; [apply HP'; discriminate|].
  split; [apply HR'; reflexivity|].
  apply HR; discriminate.
Defined.

(** Four steps of the workload write 0 and 1; the restored container writes
    2 first. *)
Lemma Restore_resumes_counter_witness :
  (forall c conf' img' c',
     Restore_shell validated_fields c conf' img' = (None, c') ->
     Status_of c' = Running /\
     Restored (Sandbox_of c') = true /\
     Checkpointed (Sandbox_of c') = false) /\
  exists c2,
    Restore_shell validated_fields (new_container "c2" sleepSpec Created)
      enforce
      {| image_Spec := sleepSpec;
         image_Kernel :=
           GuestKernel_Pause
             {| task := {| sh_pc := AtSleep; sh_i := 1 |}; paused := false |} |}
    = (None, c2) /\
    Status_of c2 = Running /\
    Restored (Sandbox_of c2) = true /\
    Checkpointed (Sandbox_of c2) = false /\
    head (snd (run_shell 3 c2 [])) = Some (1 + 1) /\
    (forall n2, snd (run_shell n2 c2 []) = [] \/
                head (snd (run_shell n2 c2 [])) = Some (1 + 1)).
Proof.
  exact (Restore_resumes_counter validated_fields sleepSpec enforce
           "c1" "c2" 4
           (fst (run_shell 4 (new_container "c1" sleepSpec Running) []))
           [0; 1] 1
           (snd (fst (Checkpoint_shell
                        (fst (run_shell 4
                                (new_container "c1" sleepSpec Running) []))
                        false)))
           _ eq_refl eq_refl eq_refl).
Defined.

End Container.

(** ** runsc/container: helpers of the container tests *)

Module ContainerTest.

(** *** Process lists *)

(** [control.Process], the fields the helpers compare: [UID] is an
    [auth.KUID] (a [uint32]), [PID] and [PPID] are [kernel.ThreadID]s
    ([int32]). The helpers take pointers, which the tests never leave
    nil. *)
Record Process : Type := {
  UID : Z;
  PID : Z;
  PPID : Z;
  TTY : string;
  Cmd : string
}.

Definition MaxUint32 : Z := 2 ^ 32 - 1.

Definition procEqual (got want : Process) : bool :=
  if negb (UID want =? MaxUint32) && negb (UID want =? UID got) then false
  else if negb (PID want =? -1) && negb (PID want =? PID got) then false
  else if negb (PPID want =? -1) && negb (PPID want =? PPID got) then false
  else if negb (String.length (TTY want) =? 0)%nat
          && negb (String.eqb (TTY want) (TTY got)) then false
  else if negb (String.length (Cmd want) =? 0)%nat
          && negb (String.eqb (Cmd want) (Cmd got)) then false
  else true.

(** The loop of [procListsEqual], [for i := range gots], from index [i] with
    [n] elements to go; [None] is an index out of range. *)
Fixpoint procListsEqual_from (gots wants : list Process) (i n : nat)
  : option bool :=
  match n with
  | O => Some true
  | S n' =>
      match gots !! i, wants !! i with
      | Some g, Some w =>
          if negb (procEqual g w) then Some false
          else procListsEqual_from gots wants (S i) n'
      | _, _ => None
      end
  end.

(** [procListsEqual] is used to check whether 2 Process lists are equal.
    Fields set to -1 in wants are ignored. *)
Definition procListsEqual (gots wants : list Process) : option bool :=
  if negb (length gots =? length wants)%nat then Some false
  else procListsEqual_from gots wants 0 (length gots).

Record processBuilder : Type := { process : Process }.

Definition newProcessBuilder : processBuilder :=
  {| process := {| UID := MaxUint32; PID := -1; PPID := -1;
                   TTY := ""; Cmd := "" |} |}.

Definition processBuilder_Cmd (p : processBuilder) (cmd : string)
  : processBuilder :=
  {| process := {| UID := UID (process p); PID := PID (process p);
                   PPID := PPID (process p); TTY := TTY (process p);
                   Cmd := cmd |} |}.

Definition processBuilder_PID (p : processBuilder) (pid : Z) : processBuilder :=
  {| process := {| UID := UID (process p); PID := pid;
                   PPID := PPID (process p); TTY := TTY (process p);
                   Cmd := Cmd (process p) |} |}.

Definition processBuilder_PPID (p : processBuilder) (ppid : Z)
  : processBuilder :=
  {| process := {| UID := UID (process p); PID := PID (process p);
                   PPID := ppid; TTY := TTY (process p);
                   Cmd := Cmd (process p) |} |}.

Definition processBuilder_UID (p : processBuilder) (uid : Z) : processBuilder :=
  {| process := {| UID := uid; PID := PID (process p);
                   PPID := PPID (process p); TTY := TTY (process p);
                   Cmd := Cmd (process p) |} |}.

Definition processBuilder_Process (p : processBuilder) : Process := process p.

Lemma length_zero_iff (s : string) : (String.length s =? 0)%nat = true <-> s = "".
Proof. destruct s; simpl; split; congruence. Qed.

Lemma procEqual_true got want :
  procEqual got want = true <->
  (UID want = MaxUint32 \/ UID want = UID got) /\
  (PID want = -1 \/ PID want = PID got) /\
  (PPID want = -1 \/ PPID want = PPID got) /\
  (TTY want = "" \/ TTY want = TTY got) /\
  (Cmd want = "" \/ Cmd want = Cmd got).
Proof.
  unfold procEqual.
  rewrite <- !length_zero_iff, <- !Z.eqb_eq, <- !String.eqb_eq.
  destruct (UID want =? MaxUint32), (UID want =? UID got),
    (PID want =? -1), (PID want =? PID got),
    (PPID want =? -1), (PPID want =? PPID got),
    (String.length (TTY want) =? 0)%nat, (String.eqb (TTY want) (TTY got)),
    (String.length (Cmd want) =? 0)%nat, (String.eqb (Cmd want) (Cmd got));
    simpl; split; try discriminate; try reflexivity;
    intuition discriminate.
Qed.

Lemma procListsEqual_from_spec gots wants i n :
  (i + n = length gots)%nat -> length gots = length wants ->
  exists b, procListsEqual_from gots wants i n = Some b /\
    (b = true <->
     Forall2 (fun g w => procEqual g w = true) (drop i gots) (drop i wants)).
Proof.
  revert i. induction n as [|n IH]; intros i Hi Hlen.
  - exists true. split; [reflexivity|]. split; [intros _|reflexivity].
    rewrite !drop_ge by lia. constructor.
  - destruct (lookup_lt_is_Some_2 gots i) as [g Hg]; [lia|].
    destruct (lookup_lt_is_Some_2 wants i) as [w Hw]; [lia|].
    simpl. rewrite Hg, Hw.
    rewrite (drop_S _ _ _ Hg), (drop_S _ _ _ Hw).
    destruct (procEqual g w) eqn:E; simpl.
    + destruct (IH (S i)) as (b & Hb & Hiff); [lia | exact Hlen |].
      exists b. split; [exact Hb|]. rewrite Hiff. split.
      * intros H. constructor; assumption.
      * intros H. inversion H; assumption.
    + exists false. split; [reflexivity|]. split; [discriminate|].
      intros H. inversion H; congruence.
Qed.

(** X16. A process that [newProcessBuilder] and its setters describe matches the
    processes that agree with it on every field that was set to something
    other than the wildcard of that field ([MaxUint32] for the UID, -1 for
    PID and PPID, the empty command); the TTY, which the builder cannot set,
    is never compared. *)
Theorem procEqual_builder_matches got cmd pid ppid uid :
  procEqual got
    (processBuilder_Process
       (processBuilder_UID
          (processBuilder_PPID
             (processBuilder_PID (processBuilder_Cmd newProcessBuilder cmd) pid)
             ppid)
          uid)) = true <->
  (uid = MaxUint32 \/ uid = UID got) /\
  (pid = -1 \/ pid = PID got) /\
  (ppid = -1 \/ ppid = PPID got) /\
  (cmd = "" \/ cmd = Cmd got).
Proof.
  rewrite procEqual_true. simpl. intuition.
Qed.

(** X17. [procListsEqual] never indexes out of range, and it returns true exactly
    when the lists have the same length and each process of [gots] matches
    the process at its index in [wants]. *)
Theorem procListsEqual_matches_pairwise gots wants :
  exists b, procListsEqual gots wants = Some b /\
    (b = true <-> Forall2 (fun g w => procEqual g w = true) gots wants).
Proof.
  unfold procListsEqual.
  destruct (length gots =? length wants)%nat eqn:E; simpl.
  - apply Nat.eqb_eq in E.
    apply (procListsEqual_from_spec gots wants 0 (length gots)); [lia | exact E].
  - apply Nat.eqb_neq in E. exists false. split; [reflexivity|].
    split; [discriminate|]. intros H. apply Forall2_length in H. contradiction.
Qed.

(** X18. Every process matches itself, and so does every process list; matching
    is not symmetric: an unset field of [want] matches any [got], not the
    other way round. *)
Theorem procEqual_reflexive_not_symmetric :
  (forall p, procEqual p p = true) /\
  (forall l, procListsEqual l l = Some true) /\
  (exists got want, procEqual got want = true /\ procEqual want got = false).
Proof.
  assert (forall p, procEqual p p = true) as Hrefl
    by (intros p; apply procEqual_true; intuition).
  split; [exact Hrefl|]. split.
  - intros l. destruct (procListsEqual_matches_pairwise l l) as (b & -> & Hb).
    f_equal. apply Hb. apply Forall_Forall2_diag, Forall_forall.
    intros p _. apply Hrefl.
  - exists {| UID := 0; PID := 1; PPID := 0; TTY := "?"; Cmd := "sleep" |},
      (processBuilder_Process newProcessBuilder).
    split; reflexivity.
Qed.

(** *** readOutputNum *)

(** The bytes 0 and 10, [\x00] and [\n] in the source. *)
Definition NUL : ascii := "000"%char.
Definition LF : ascii := "010"%char.

(** What [readOutputNum] comes back with: the number, one of its six errors
    (kept with the values its message prints), or an index out of range. *)
Inductive readOutputNum_error : Type :=
  | ErrorOpeningFile (file : string) (err : error)
  | ErrorWaitingForOutputFile (err : error)
  | ErrorReadingFile (err : error)
  | ErrorNoContentWasRead
  | PositionNotWithinLength (position : Z) (nums : list string)
  | ErrorGettingNumber (num : string).

Inductive readOutputNum_result : Type :=
  | Num (num : Z)
  | Failed (err : readOutputNum_error)
  | IndexOutOfRange.

Section WithFiles.

(** The file system is outside the program: [os.Open], [io.ReadAll] and the
    polling [waitForFileNotEmpty] (which returns once the file has a size
    other than zero, or with an error after 30 seconds) stay abstract. *)
Context {File : Type}.
Variable os_Open : string -> File + error.
Variable waitForFileNotEmpty : File -> option error.
Variable io_ReadAll : File -> string + error.

(** [readOutputNum] reads a file at given filepath and returns the int at
    the requested position. *)
Definition readOutputNum (file : string) (position : Z) : readOutputNum_result :=
  match os_Open file with
  | inr err => Failed (ErrorOpeningFile file err)
  | inl f =>
      match waitForFileNotEmpty f with
      | Some err => Failed (ErrorWaitingForOutputFile err)
      | None =>
          match io_ReadAll f with
          | inr err => Failed (ErrorReadingFile err)
          | inl b =>
              if (String.length b =? 0)%nat then Failed ErrorNoContentWasRead
              else
                let b := Go.Trim b (String NUL "") in
                let nums := Go.Split b (String LF "") in
                if Z.of_nat (length nums) <=? position
                then Failed (PositionNotWithinLength position nums)
                else
                  let position :=
                    if position =? -1 then Z.of_nat (length nums) - 2
                    else position in
                  match (if position <? 0 then None
                         else nums !! Z.to_nat position) with
                  | None => IndexOutOfRange
                  | Some s =>
                      match Go.Atoi s with
                      | None => Failed (ErrorGettingNumber s)
                      | Some num => Num num
                      end
                  end
          end
      end
  end.

(** The text a shell loop of [echo $i] writes for the numbers [nums]: each
    in decimal, each followed by a newline. *)
Fixpoint echo_lines (nums : list Z) : string :=
  match nums with
  | [] => ""
  | n :: rest => Go.Itoa n +:+ String LF (echo_lines rest)
  end.

Lemma echo_lines_no_NUL nums : Go.IndexByte_found (echo_lines nums) NUL = false.
Proof.
  induction nums as [|n rest IH]; [reflexivity|].
  simpl. rewrite Go.IndexByte_found_app, Go.Itoa_decimal by reflexivity.
  simpl. exact IH.
Qed.

Lemma Split_echo_lines nums partial :
  Go.IndexByte_found partial LF = false ->
  Go.Split (echo_lines nums +:+ partial) (String LF "") =
    (Go.Itoa <$> nums) ++ [partial].
Proof.
  intros Hp. unfold Go.Split. induction nums as [|n rest IH].
  - simpl. rewrite Go.Split_from_piece by exact Hp. reflexivity.
  - simpl echo_lines. rewrite Go.string_app_assoc, Go.app_String.
    rewrite Go.Split_from_sep by (apply Go.Itoa_decimal; reflexivity).
    rewrite IH. reflexivity.
Qed.

Lemma string_length_app (a b : string) :
  String.length (a +:+ b) = (String.length a + String.length b)%nat.
Proof.
  induction a as [|x a IH]; [reflexivity|].
  rewrite Go.app_String. simpl. rewrite IH. reflexivity.
Qed.

(** What [readOutputNum] does once the file has been read, for content that
    is [k] null bytes, the lines of [nums] and an unfinished line. *)
Lemma readOutputNum_echo_lines file f k nums partial position :
  os_Open file = inl f -> waitForFileNotEmpty f = None ->
  io_ReadAll f =
    inl (Go.Repeat (String NUL "") k +:+ (echo_lines nums +:+ partial)) ->
  nums <> [] ->
  Go.IndexByte_found partial LF = false ->
  Go.IndexByte_found partial NUL = false ->
  readOutputNum file position =
    let strs := (Go.Itoa <$> nums) ++ [partial] in
    if Z.of_nat (length strs) <=? position
    then Failed (PositionNotWithinLength position strs)
    else
      let position :=
        if position =? -1 then Z.of_nat (length strs) - 2 else position in
      match (if position <? 0 then None else strs !! Z.to_nat position) with
      | None => IndexOutOfRange
      | Some s =>
          match Go.Atoi s with
          | None => Failed (ErrorGettingNumber s)
          | Some num => Num num
          end
      end.
Proof.
  intros Hopen Hwait Hread Hnums Hlf Hnul.
  unfold readOutputNum. rewrite Hopen, Hwait, Hread.
  replace (String.length _ =? 0)%nat with false.
  2:{ symmetry. apply Nat.eqb_neq. rewrite !string_length_app.
      destruct nums as [|n rest]; [congruence|].
      simpl echo_lines. rewrite string_length_app. simpl. lia. }
  rewrite Go.Trim_leading_bytes.
  2:{ rewrite Go.IndexByte_found_app, echo_lines_no_NUL, Hnul. reflexivity. }
  rewrite Split_echo_lines by exact Hlf. reflexivity.
Qed.

(** X19. With the lines of [nums] in the file, after any number of leading null
    bytes and before an unfinished last line, [readOutputNum] returns the
    [i]-th number at position [i], and the last number that is followed by a
    newline at position -1. *)
Theorem readOutputNum_reads_echo_lines file f k nums partial :
  os_Open file = inl f -> waitForFileNotEmpty f = None ->
  io_ReadAll f =
    inl (Go.Repeat (String NUL "") k +:+ (echo_lines nums +:+ partial)) ->
  Forall is_int64 nums ->
  Go.IndexByte_found partial LF = false ->
  Go.IndexByte_found partial NUL = false ->
  (forall i n, nums !! i = Some n -> readOutputNum file (Z.of_nat i) = Num n) /\
  (forall n, last nums = Some n -> readOutputNum file (-1) = Num n).
Proof.
  intros Hopen Hwait Hread Hint Hlf Hnul.
  assert (forall i n, nums !! i = Some n ->
            readOutputNum file (Z.of_nat i) = Num n) as Hat.
  { intros i n Hi.
    assert (nums <> []) as Hne by (intros ->; discriminate).
    rewrite (readOutputNum_echo_lines file f k nums partial _
               Hopen Hwait Hread Hne Hlf Hnul).
    cbv zeta. pose proof (lookup_lt_Some _ _ _ Hi) as Hlt.
    rewrite length_app, length_fmap. simpl length.
    replace (_ <=? _) with false by (symmetry; apply Z.leb_gt; lia).
    replace (Z.of_nat i =? -1) with false by (symmetry; apply Z.eqb_neq; lia).
    replace (Z.of_nat i <? 0) with false by (symmetry; apply Z.ltb_ge; lia).
    rewrite Nat2Z.id, lookup_app_l by (rewrite length_fmap; exact Hlt).
    rewrite list_lookup_fmap, Hi. simpl.
    rewrite Go.Atoi_Itoa; [reflexivity|].
    eapply Forall_lookup_1; eassumption. }
  split; [exact Hat|].
  intros n Hlast.
  assert (nums <> []) as Hne by (intros ->; discriminate).
  rewrite last_lookup in Hlast.
  assert (length nums <> 0)%nat as Hlen by (destruct nums; simpl; congruence).
  rewrite (readOutputNum_echo_lines file f k nums partial _
             Hopen Hwait Hread Hne Hlf Hnul).
  cbv zeta. rewrite length_app, length_fmap. simpl length.
  replace (_ <=? -1) with false by (symmetry; apply Z.leb_gt; lia).
  change (-1 =? -1) with true. cbv iota.
  replace (_ <? 0) with false by (symmetry; apply Z.ltb_ge; lia).
  replace (Z.to_nat (Z.of_nat (length nums + 1) - 2))
    with (Init.Nat.pred (length nums)) by lia.
  rewrite lookup_app_l by (rewrite length_fmap; lia).
  rewrite list_lookup_fmap, Hlast. simpl.
  rewrite Go.Atoi_Itoa; [reflexivity|].
  eapply Forall_lookup_1; eassumption.
Qed.

(** X20. [readOutputNum] indexes out of range, which stops the test with a
    run-time panic, at every position below -1 and, when what was read holds
    no newline, at position -1. *)
Theorem readOutputNum_index_out_of_range file f b position :
  os_Open file = inl f -> waitForFileNotEmpty f = None ->
  io_ReadAll f = inl b -> b <> "" ->
  position < -1 \/
  (position = -1 /\
   Go.IndexByte_found (Go.Trim b (String NUL "")) LF = false) ->
  readOutputNum file position = IndexOutOfRange.
Proof.
  intros Hopen Hwait Hread Hb Hpos.
  unfold readOutputNum. rewrite Hopen, Hwait, Hread.
  replace (String.length b =? 0)%nat with false
    by (symmetry; apply Nat.eqb_neq; destruct b; simpl; congruence).
  cbv zeta.
  destruct Hpos as [Hlt | [-> Hlf]].
  - replace (_ <=? position) with false by (symmetry; apply Z.leb_gt; lia).
    replace (position =? -1) with false by (symmetry; apply Z.eqb_neq; lia).
    replace (position <? 0) with true by (symmetry; apply Z.ltb_lt; lia).
    reflexivity.
  - unfold Go.Split. rewrite Go.Split_from_piece by exact Hlf. reflexivity.
Qed.

End WithFiles.

(** *** An output file at hand *)

(** A file system of one file: it opens, is not empty and reads as
    [content]. *)
Abbreviation readOutputNum_of content :=
  (readOutputNum (File := unit) (fun _ => inl tt) (fun _ => None)
     (fun _ => inl content)).

(** Two null bytes, the lines 1, 2 and 3, and a 4 whose newline has not
    been written yet. *)
Definition restored_output : string :=
  Go.Repeat (String NUL "") 2 +:+ (echo_lines [1; 2; 3] +:+ "4").

Example readOutputNum_restored_output :
  readOutputNum_of restored_output "out" 0 = Num 1 /\
  readOutputNum_of restored_output "out" (-1) = Num 3 /\
  readOutputNum_of restored_output "out" 3 = Num 4 /\
  readOutputNum_of restored_output "out" 4 =
    Failed (PositionNotWithinLength 4 ["1"; "2"; "3"; "4"]) /\
  readOutputNum_of restored_output "out" (-2) = IndexOutOfRange /\
  readOutputNum_of (echo_lines [1; 2]) "out" 2 = Failed (ErrorGettingNumber "").
Proof. repeat split. Qed.

Lemma readOutputNum_reads_echo_lines_witness :
  (forall i n, [1; 2; 3] !! i = Some n ->
     readOutputNum_of restored_output "out" (Z.of_nat i) = Num n) /\
  (forall n, last [1; 2; 3] = Some n ->
     readOutputNum_of restored_output "out" (-1) = Num n).
Proof.
  apply (readOutputNum_reads_echo_lines (File := unit)
           (fun _ => inl tt) (fun _ => None) (fun _ => inl restored_output)
           "out" tt 2 [1; 2; 3] "4").
  - reflexivity.
  - reflexivity.
  - reflexivity.
  - repeat constructor; unfold is_int64; lia.
  - reflexivity.
  - reflexivity.
Defined.

Lemma readOutputNum_index_out_of_range_witness :
  readOutputNum_of "5" "out" (-1) = IndexOutOfRange.
Proof.
  apply (readOutputNum_index_out_of_range (File := unit)
           (fun _ => inl tt) (fun _ => None) (fun _ => inl "5")
           "out" tt "5" (-1)).
  - reflexivity.
  - reflexivity.
  - reflexivity.
  - discriminate.
  - right. split; reflexivity.
Defined.

End ContainerTest.

(** ** pkg/test/testutil: test sharding *)

Module Testutil.

Inductive shard_error : Type :=
  | InvalidShardIndex (indexStr : string)
  | InvalidTotalShards (totalStr : string).

(** Whether [float64(z)] is [z] exactly. *)
Definition float64_exact (z : Z) : bool := (- 2 ^ 53 <=? z) && (z <=? 2 ^ 53).

(** [int(math.Ceil(float64(numTests) / float64(shardTotal)))]. Where both
    conversions are exact and the divisor is not zero, the correctly rounded
    quotient lies on the same side of every integer as the exact one, and
    the result is the ceiling of the exact quotient. Elsewhere (a division
    by zero, whose conversion to [int] Go leaves to the platform, or
    operands beyond 2^53) the embedding gives no value. *)
Definition numBlocks (numTests shardTotal : Z) : option Z :=
  if float64_exact numTests && float64_exact shardTotal
     && negb (shardTotal =? 0)
  then Some (- ((- numTests) / shardTotal))
  else None.

(** The loop [for i := 0; i < numBlocks; i++], from [i] with [n] rounds to
    go. *)
Fixpoint pick_blocks (n : nat) (i shardTotal shardIndex numTests : Z)
  : list Z :=
  match n with
  | O => []
  | S n' =>
      let pick := wrap_int64 (wrap_int64 (i * shardTotal) + shardIndex) in
      (if pick <? numTests then [pick] else [])
      ++ pick_blocks n' (i + 1) shardTotal shardIndex numTests
  end.

(** [TestIndicesForShard] returns indices for this test shard based on the
    TEST_SHARD_INDEX and TEST_TOTAL_SHARDS environment vars, as well as the
    passed partition flags. [env] is the environment, [partition] and
    [totalPartitions] are the values of the two flags. The outer [None] is
    a run in which [numBlocks] has no value. *)
Definition TestIndicesForShard (env : gmap string string)
  (partition totalPartitions : Z) (numTests : Z)
  : option (list Z + shard_error) :=
  let parsed :=
    match env !! "TEST_SHARD_INDEX", env !! "TEST_TOTAL_SHARDS" with
    | Some indexStr, Some totalStr =>
        match Go.Atoi indexStr with
        | None => inr (InvalidShardIndex indexStr)
        | Some shardIndex =>
            match Go.Atoi totalStr with
            | None => inr (InvalidTotalShards totalStr)
            | Some shardTotal => inl (shardIndex, shardTotal)
            end
        end
    | _, _ => inl (0, 1)
    end in
  match parsed with
  | inr err => Some (inr err)
  | inl (shardIndex, shardTotal) =>
      let partitionSize := shardTotal in
      let shardTotal := wrap_int64 (totalPartitions * shardTotal) in
      let shardIndex :=
        wrap_int64 (wrap_int64 (partitionSize * wrap_int64 (partition - 1))
                    + shardIndex) in
      match numBlocks numTests shardTotal with
      | None => None
      | Some blocks =>
          Some (inl (pick_blocks (Z.to_nat blocks) 0 shardTotal shardIndex
                       numTests))
      end
  end.

(** *** Facts *)

Lemma pick_blocks_elem n i T I N x :
  0 <= i -> 0 < T -> 0 <= I ->
  (i + Z.of_nat n) * T + I < 2 ^ 63 ->
  x ∈ pick_blocks n i T I N <->
  exists j, i <= j < i + Z.of_nat n /\ x = j * T + I /\ x < N.
Proof.
  revert i. induction n as [|n IH]; intros i Hi HT HI Hb.
  - simpl. split; [intros H; inversion H | intros (j & Hj & _); lia].
  - cbn [pick_blocks]. cbv zeta.
    assert (is_int64 (i * T)) as H1 by (unfold is_int64; nia).
    assert (is_int64 (i * T + I)) as H2 by (unfold is_int64; nia).
    rewrite (wrap_int64_id (i * T)) by exact H1.
    rewrite (wrap_int64_id (i * T + I)) by exact H2.
    rewrite elem_of_app, IH by (try lia; nia).
    split.
    + intros [Hx | (j & Hj & Hx)].
      * destruct (i * T + I <? N) eqn:E; [|inversion Hx].
        apply Z.ltb_lt in E. apply list_elem_of_singleton in Hx.
        exists i. split; [lia|]. split; [exact Hx | lia].
      * exists j. split; [lia | exact Hx].
    + intros (j & Hj & -> & HN).
      destruct (decide (j = i)) as [->|Hne].
      * left. replace (i * T + I <? N) with true
          by (symmetry; apply Z.ltb_lt; exact HN).
        apply list_elem_of_singleton. reflexivity.
      * right. exists j. split; [lia|]. split; [reflexivity | exact HN].
Qed.

Lemma pick_blocks_sorted n i T I N :
  0 <= i -> 0 < T -> 0 <= I ->
  (i + Z.of_nat n) * T + I < 2 ^ 63 ->
  StronglySorted Z.lt (pick_blocks n i T I N).
Proof.
  revert i. induction n as [|n IH]; intros i Hi HT HI Hb; [constructor|].
  cbn [pick_blocks]. cbv zeta.
  assert (is_int64 (i * T)) as H1 by (unfold is_int64; nia).
  assert (is_int64 (i * T + I)) as H2 by (unfold is_int64; nia).
  rewrite (wrap_int64_id (i * T)) by exact H1.
  rewrite (wrap_int64_id (i * T + I)) by exact H2.
  assert (StronglySorted Z.lt (pick_blocks n (i + 1) T I N)) as Hs
    by (apply IH; try lia; nia).
  destruct (i * T + I <? N); [|exact Hs].
  simpl. constructor; [exact Hs|].
  apply Forall_forall. intros x Hx.
  apply pick_blocks_elem in Hx as (j & Hj & -> & _); try lia; nia.
Qed.

(** The indices the loop picks, for a positive number of shards and a shard
    index below it: the test indices congruent to the shard index. *)
Lemma shard_indices_elem T I N blocks x :
  0 < T -> 0 <= I < T -> 0 <= N ->
  (N + 2 * T) < 2 ^ 62 ->
  numBlocks N T = Some blocks ->
  x ∈ pick_blocks (Z.to_nat blocks) 0 T I N <-> 0 <= x < N /\ x mod T = I.
Proof.
  intros HT HI HN Hb Hnb. unfold numBlocks in Hnb.
  destruct (_ && _) in Hnb; [|discriminate]. inversion Hnb as [Hblocks]; clear Hnb.
  assert (0 <= blocks /\ (blocks - 1) * T < N <= blocks * T) as Hbl.
  { subst blocks. pose proof (Z.div_mod (- N) T). pose proof (Z.mod_pos_bound (- N) T).
    nia. }
  rewrite pick_blocks_elem by (try lia; nia).
  split.
  - intros (j & Hj & -> & Hlt). split; [nia|].
    rewrite Z.add_comm, Z.mod_add by lia. apply Z.mod_small. lia.
  - intros (Hx & Hm). exists (x / T).
    pose proof (Z.div_mod x T). pose proof (Z.mod_pos_bound x T).
    split; [nia|]. split; [lia | lia].
Qed.

Lemma numBlocks_exact N T :
  - 2 ^ 53 <= N <= 2 ^ 53 -> - 2 ^ 53 <= T <= 2 ^ 53 -> T <> 0 ->
  numBlocks N T = Some (- ((- N) / T)).
Proof.
  intros HN HT H0. unfold numBlocks, float64_exact.
  replace (- 2 ^ 53 <=? N) with true by (symmetry; apply Z.leb_le; lia).
  replace (N <=? 2 ^ 53) with true by (symmetry; apply Z.leb_le; lia).
  replace (- 2 ^ 53 <=? T) with true by (symmetry; apply Z.leb_le; lia).
  replace (T <=? 2 ^ 53) with true by (symmetry; apply Z.leb_le; lia).
  replace (T =? 0) with false by (symmetry; apply Z.eqb_neq; lia).
  reflexivity.
Qed.

Lemma pick_blocks_all n i N :
  0 <= i -> i + Z.of_nat n = N -> N < 2 ^ 62 ->
  pick_blocks n i 1 0 N = seqZ i (Z.of_nat n).
Proof.
  revert i. induction n as [|n IH]; intros i Hi HN Hb; [reflexivity|].
  cbn [pick_blocks]. cbv zeta.
  rewrite Z.mul_1_r, Z.add_0_r.
  rewrite !(wrap_int64_id i) by (unfold is_int64; lia).
  replace (i <? N) with true by (symmetry; apply Z.ltb_lt; lia).
  rewrite IH by lia.
  rewrite (seqZ_cons i) by lia. simpl. f_equal. f_equal. lia.
Qed.

(** What [TestIndicesForShard] returns for shard [idx] of [S] in partition
    [p] of [P]. *)
Lemma TestIndicesForShard_sharded env indexStr totalStr idx S p P N :
  env !! "TEST_SHARD_INDEX" = Some indexStr -> Go.Atoi indexStr = Some idx ->
  env !! "TEST_TOTAL_SHARDS" = Some totalStr -> Go.Atoi totalStr = Some S ->
  0 <= idx < S -> 1 <= p <= P -> 0 <= N <= 2 ^ 53 -> P * S <= 2 ^ 53 ->
  exists l, TestIndicesForShard env p P N = Some (inl l) /\
    StronglySorted Z.lt l /\
    (forall x, x ∈ l <-> 0 <= x < N /\ x mod (P * S) = S * (p - 1) + idx).
Proof.
  intros Hi Hai Ht Hat Hidx Hp HN HPS.
  unfold TestIndicesForShard. rewrite Hi, Ht, Hai, Hat. cbv zeta.
  assert (0 <= S * (p - 1) + idx < P * S) as HI by nia.
  change (2 ^ 53) with 9007199254740992 in *.
  rewrite (wrap_int64_id (P * S))
    by (unfold is_int64; change (2 ^ 63) with 9223372036854775808; lia).
  rewrite (wrap_int64_id (p - 1))
    by (unfold is_int64; change (2 ^ 63) with 9223372036854775808; nia).
  rewrite (wrap_int64_id (S * (p - 1)))
    by (unfold is_int64; change (2 ^ 63) with 9223372036854775808; nia).
  rewrite (wrap_int64_id (S * (p - 1) + idx))
    by (unfold is_int64; change (2 ^ 63) with 9223372036854775808; lia).
  pose proof (numBlocks_exact N (P * S)) as Hnb.
  change (2 ^ 53) with 9007199254740992 in Hnb.
  rewrite Hnb by lia.
  set (blocks := - ((- N) / (P * S))) in *.
  specialize (Hnb ltac:(lia) ltac:(lia) ltac:(lia)).
  eexists. split; [reflexivity|].
  assert (0 <= blocks /\ blocks * (P * S) < N + P * S) as Hbl.
  { subst blocks. pose proof (Z.div_mod (- N) (P * S)).
    pose proof (Z.mod_pos_bound (- N) (P * S)). nia. }
  split.
  - apply pick_blocks_sorted; try lia;
      change (2 ^ 63) with 9223372036854775808; nia.
  - intros x. apply shard_indices_elem; try lia; try exact Hnb;
      change (2 ^ 62) with 4611686018427387904; lia.
Qed.

(** The environment of shard [idx] of [S]. *)
Definition shard_env (idx S : Z) : gmap string string :=
  {[ "TEST_SHARD_INDEX" := Go.Itoa idx; "TEST_TOTAL_SHARDS" := Go.Itoa S ]}.

(** *** Sharding *)

(** X21. With both variables set to numbers, shard [idx] of [S] in partition [p]
    of [P] gets, in increasing order and each once, the test indices that
    leave the remainder [S * (p - 1) + idx] modulo [P * S]; a shard whose
    remainder is not below the number of tests gets none. *)
Theorem TestIndicesForShard_picks_its_residue
  env indexStr totalStr idx S p P N :
  env !! "TEST_SHARD_INDEX" = Some indexStr -> Go.Atoi indexStr = Some idx ->
  env !! "TEST_TOTAL_SHARDS" = Some totalStr -> Go.Atoi totalStr = Some S ->
  0 <= idx < S -> 1 <= p <= P -> 0 <= N <= 2 ^ 53 -> P * S <= 2 ^ 53 ->
  exists l, TestIndicesForShard env p P N = Some (inl l) /\
    StronglySorted Z.lt l /\
    (forall x, x ∈ l <-> 0 <= x < N /\ x mod (P * S) = S * (p - 1) + idx) /\
    (N <= S * (p - 1) + idx -> l = []).
Proof.
  intros Hi Hai Ht Hat Hidx Hp HN HPS.
  destruct (TestIndicesForShard_sharded env indexStr totalStr idx S p P N)
    as (l & Hl & Hs & Hel); try assumption.
  exists l. split; [exact Hl|]. split; [exact Hs|]. split; [exact Hel|].
  intros Hfew. destruct l as [|x l]; [reflexivity|]. exfalso.
  assert (x ∈ x :: l) as Hx by apply list_elem_of_here.
  apply Hel in Hx as [Hx Hm].
  pose proof (Z.mod_le x (P * S)). nia.
Qed.

(** X22. Over the [P * S] runs of a sharded and partitioned test, every test
    index is picked by exactly one run. *)
Theorem TestIndicesForShard_runs_every_test_once S P N x :
  1 <= S -> 1 <= P -> 0 <= N <= 2 ^ 53 -> P * S <= 2 ^ 53 -> 0 <= x < N ->
  exists p idx, 1 <= p <= P /\ 0 <= idx < S /\
    forall p' idx', 1 <= p' <= P -> 0 <= idx' < S ->
      exists l, TestIndicesForShard (shard_env idx' S) p' P N = Some (inl l) /\
        (x ∈ l <-> p' = p /\ idx' = idx).
Proof.
  intros HS HP HN HPS Hx.
  set (r := x mod (P * S)).
  assert (0 <= r < P * S) as Hr by (apply Z.mod_pos_bound; nia).
  exists (r / S + 1), (r mod S).
  pose proof (Z.div_mod r S) as Hdm. pose proof (Z.mod_pos_bound r S) as Hmb.
  split; [split; [nia|]|].
  { assert (r / S < P); [|lia]. apply Z.div_lt_upper_bound; lia. }
  split; [lia|].
  intros p' idx' Hp' Hidx'.
  assert (is_int64 idx' /\ is_int64 S) as [Hi1 Hi2].
  { unfold is_int64. change (2 ^ 53) with 9007199254740992 in *.
    change (2 ^ 63) with 9223372036854775808. nia. }
  destruct (TestIndicesForShard_sharded (shard_env idx' S)
              (Go.Itoa idx') (Go.Itoa S) idx' S p' P N)
    as (l & Hl & _ & Hel); try assumption;
    try (apply Go.Atoi_Itoa; assumption); try reflexivity.
  exists l. split; [exact Hl|]. rewrite Hel. fold r.
  split.
  - intros [_ Hres].
    assert (r / S = p' - 1 /\ r mod S = idx') as [? ?]; [|lia].
    apply (Z.div_mod_unique S); [lia.. |]. lia.
  - intros [-> ->]. split; [lia|]. lia.
Qed.

(** X23. Without TEST_SHARD_INDEX or without TEST_TOTAL_SHARDS in the
    environment, and with the partition flags at their default of 1, every
    test index is returned, in order, whatever the other variable holds. *)
Theorem TestIndicesForShard_unsharded_runs_all env N :
  env !! "TEST_SHARD_INDEX" = None \/ env !! "TEST_TOTAL_SHARDS" = None ->
  0 <= N <= 2 ^ 53 ->
  TestIndicesForShard env 1 1 N = Some (inl (seqZ 0 N)).
Proof.
  intros Henv HN.
  assert (TestIndicesForShard env 1 1 N =
          match numBlocks N 1 with
          | None => None
          | Some blocks => Some (inl (pick_blocks (Z.to_nat blocks) 0 1 0 N))
          end) as ->.
  { unfold TestIndicesForShard.
    destruct Henv as [-> | ->]; [|destruct (env !! "TEST_SHARD_INDEX")];
      reflexivity. }
  change (2 ^ 53) with 9007199254740992 in *.
  rewrite numBlocks_exact by (change (2 ^ 53) with 9007199254740992; lia).
  rewrite Z.div_1_r, Z.opp_involutive.
  rewrite pick_blocks_all by (change (2 ^ 62) with 4611686018427387904; lia).
  rewrite Z2Nat.id by lia. reflexivity.
Qed.

(** X24. When both variables are set, one that is not a number is an error, the
    shard index being looked at first; the partition flags and the number of
    tests play no part. *)
Theorem TestIndicesForShard_invalid_env env indexStr totalStr p P N :
  env !! "TEST_SHARD_INDEX" = Some indexStr ->
  env !! "TEST_TOTAL_SHARDS" = Some totalStr ->
  (Go.Atoi indexStr = None ->
   TestIndicesForShard env p P N = Some (inr (InvalidShardIndex indexStr))) /\
  (Go.Atoi indexStr <> None -> Go.Atoi totalStr = None ->
   TestIndicesForShard env p P N = Some (inr (InvalidTotalShards totalStr))).
Proof.
  intros Hi Ht. unfold TestIndicesForShard. rewrite Hi, Ht.
  split.
  - intros ->. reflexivity.
  - intros Hsome ->. destruct (Go.Atoi indexStr); [reflexivity | congruence].
Qed.

(** *** Ten tests over two partitions of three shards *)

Example ten_tests_sharded :
  TestIndicesForShard (shard_env 0 3) 1 2 10 = Some (inl [0; 6]) /\
  TestIndicesForShard (shard_env 1 3) 1 2 10 = Some (inl [1; 7]) /\
  TestIndicesForShard (shard_env 2 3) 1 2 10 = Some (inl [2; 8]) /\
  TestIndicesForShard (shard_env 0 3) 2 2 10 = Some (inl [3; 9]) /\
  TestIndicesForShard (shard_env 1 3) 2 2 10 = Some (inl [4]) /\
  TestIndicesForShard (shard_env 2 3) 2 2 10 = Some (inl [5]) /\
  TestIndicesForShard (shard_env 5 8) 2 2 10 = Some (inl []) /\
  TestIndicesForShard ∅ 1 1 3 = Some (inl [0; 1; 2]) /\
  TestIndicesForShard (shard_env 0 0) 1 1 3 = None.
Proof. repeat split. Qed.

Lemma TestIndicesForShard_picks_its_residue_witness :
  exists l, TestIndicesForShard (shard_env 1 3) 1 2 10 = Some (inl l) /\
    StronglySorted Z.lt l /\
    (forall x, x ∈ l <-> 0 <= x < 10 /\ x mod (2 * 3) = 3 * (1 - 1) + 1) /\
    (10 <= 3 * (1 - 1) + 1 -> l = []).
Proof.
  apply (TestIndicesForShard_picks_its_residue (shard_env 1 3) "1" "3").
  - reflexivity.
  - reflexivity.
  - reflexivity.
  - reflexivity.
  - lia.
  - lia.
  - lia.
  - lia.
Defined.

Lemma TestIndicesForShard_runs_every_test_once_witness :
  exists p idx, 1 <= p <= 2 /\ 0 <= idx < 3 /\
    forall p' idx', 1 <= p' <= 2 -> 0 <= idx' < 3 ->
      exists l, TestIndicesForShard (shard_env idx' 3) p' 2 10 = Some (inl l) /\
        (7 ∈ l <-> p' = p /\ idx' = idx).
Proof.
  apply (TestIndicesForShard_runs_every_test_once 3 2 10 7); lia.
Defined.

Lemma TestIndicesForShard_unsharded_runs_all_witness :
  TestIndicesForShard {[ "TEST_TOTAL_SHARDS" := "4" ]} 1 1 5 =
    Some (inl (seqZ 0 5)).
Proof.
  apply (TestIndicesForShard_unsharded_runs_all
           {[ "TEST_TOTAL_SHARDS" := "4" ]} 5).
  - left. reflexivity.
  - lia.
Defined.

Lemma TestIndicesForShard_invalid_env_witness :
  let env : gmap string string :=
    {[ "TEST_SHARD_INDEX" := "one"; "TEST_TOTAL_SHARDS" := "" ]} in
  (Go.Atoi "one" = None ->
   TestIndicesForShard env 1 1 5 = Some (inr (InvalidShardIndex "one"))) /\
  (Go.Atoi "one" <> None -> Go.Atoi "" = None ->
   TestIndicesForShard env 1 1 5 = Some (inr (InvalidTotalShards ""))).
Proof.
  apply (TestIndicesForShard_invalid_env
           {[ "TEST_SHARD_INDEX" := "one"; "TEST_TOTAL_SHARDS" := "" ]}
           "one" "" 1 1 5).
  - reflexivity.
  - reflexivity.
Defined.

End Testutil.
